(** * birdieboxdsl: the CSV export and order-split webhook service

  A shallow embedding of [src/index.js] (the Express application with the
  routes [/generate-csv] and [/process-csv-orders]) and the properties its
  specification states about it.  The file holds the application twice;
  the first copy (lines 1-192) is the one embedded, and line numbers refer
  to it.  The second copy differs in the API version and in having no log
  line inside the [try] block of the loop.

  Conventions of the embedding.
  - Text is a Rocq [string]; each character stands for one code unit
    below 256, so the regular-expression class [\s] is its seven members
    in that range.  Literal messages of the source that contain characters
    beyond that range are kept as the bytes of the source file.
  - JavaScript values are the values JSON can deliver, plus [undefined];
    numbers are the integers, printed in decimal.
  - An object is its list of own properties in iteration order.
  - Console output is not recorded.  A logging statement is kept only for
    the conversions to text that its template literal forces, because such
    a conversion can throw.
  - The network is a parameter ([world]): it answers the CSV download, the
    order-creation posts and the cancellation post.  The third-party
    [json2csv] and [csv-parser] packages are outside the repository: the
    first is a parameter of [generate_csv], the rows produced by the second
    are part of the world's answer. *)

From Stdlib Require Import List String Ascii ZArith Bool Lia DecimalString.
Set Warnings "-register-all".
Import ListNotations.
Open Scope string_scope.

(* ================================================================== *)
(** ** Text: the string operations the handlers use *)

Module Text.

(** [\s] restricted to code units below 256: TAB, LF, VT, FF, CR, SP, NBSP. *)
Definition is_space (c : ascii) : bool :=
  let n := nat_of_ascii c in
  ((9 <=? n)%nat && (n <=? 13)%nat) || (n =? 32)%nat || (n =? 160)%nat.

(** [[^\s]] *)
Definition not_space (c : ascii) : bool := negb (is_space c).

Fixpoint all (p : ascii -> bool) (s : string) : bool :=
  match s with
  | EmptyString => true
  | String c s' => p c && all p s'
  end.

(** [strip_prefix p s] is the rest of [s] after the prefix [p], if any. *)
Fixpoint strip_prefix (p s : string) : option string :=
  match p with
  | EmptyString => Some s
  | String a p' =>
      match s with
      | EmptyString => None
      | String b s' => if Ascii.eqb a b then strip_prefix p' s' else None
      end
  end.

(** [String.prototype.split] with a one-character separator: [n]
    separators give [n + 1] tokens, empty ones included. *)
Fixpoint split (sep : ascii) (s : string) : list string :=
  match s with
  | EmptyString => [EmptyString]
  | String c s' =>
      if Ascii.eqb c sep then EmptyString :: split sep s'
      else match split sep s' with
           | t :: ts => String c t :: ts
           | [] => [String c EmptyString]
           end
  end.

(** [Array.prototype.join] on an array of strings. *)
Definition join (sep : string) (l : list string) : string :=
  String.concat sep l.

Definition is_empty (s : string) : bool :=
  match s with EmptyString => true | _ => false end.

(** [s || d] at type string. *)
Definition or_text (s d : string) : string :=
  if is_empty s then d else s.

End Text.

(* ================================================================== *)
(** ** Regular expressions: the fragment the webhook's pattern lives in *)

Module Regex.

Inductive regex : Type :=
| Lit (s : string)                 (* a literal run of characters *)
| Plus1 (cls : ascii -> bool)      (* [c+] for a character class, greedy *)
| Seq (r1 r2 : regex).

(** Greedy [c+] followed by the continuation [k]: take as many characters
    as possible, give one back at a time while [k] fails. *)
Fixpoint plus_class (cls : ascii -> bool) (k : string -> option string)
    (s : string) : option string :=
  match s with
  | EmptyString => None
  | String c s' =>
      if cls c then
        match plus_class cls k s' with
        | Some r => Some r
        | None => k s'
        end
      else None
  end.

(** Backtracking matcher; the result is what is left of the subject. *)
Fixpoint run (r : regex) (k : string -> option string) (s : string)
    : option string :=
  match r with
  | Lit p => match Text.strip_prefix p s with
             | Some s' => k s'
             | None => None
             end
  | Plus1 cls => plus_class cls k s
  | Seq r1 r2 => run r1 (run r2 k) s
  end.

Definition match_here (r : regex) (s : string) : option string :=
  match run r Some s with
  | Some rest => Some (substring 0 (String.length s - String.length rest) s)
  | None => None
  end.

(** [String.prototype.match] with a regular expression without the [g]
    flag: the match at the leftmost position that has one ([m[0]]), or
    [None] for JavaScript's [null]. *)
Fixpoint js_match (r : regex) (s : string) : option string :=
  match match_here r s with
  | Some m => Some m
  | None =>
      match s with
      | EmptyString => None
      | String _ s' => js_match r s'
      end
  end.

(** Declarative meaning of the fragment. *)
Inductive matches : regex -> string -> Prop :=
| matches_lit p : matches (Lit p) p
| matches_plus cls w :
    w <> EmptyString -> Text.all cls w = true -> matches (Plus1 cls) w
| matches_seq r1 r2 u v :
    matches r1 u -> matches r2 v -> matches (Seq r1 r2) (u ++ v).

(** [s] has a substring that [r] matches. *)
Definition occurs (r : regex) (s : string) : Prop :=
  exists pre m post, s = pre ++ m ++ post /\ matches r m.

End Regex.

(* ================================================================== *)
(** ** JavaScript values *)

Module JS.

Inductive value : Type :=
| VUndefined
| VNull
| VBool (b : bool)
| VNum (n : Z)
| VStr (s : string)
| VArr (items : list value)
| VObj (props : list (string * value)).

(** Thrown values: all are [Error] objects, of which the handlers read
    [message] only. *)
Inductive error : Type :=
| TypeError (msg : string)
| Rejected (msg : string).       (* a rejected promise of a library *)

Definition message (e : error) : string :=
  match e with TypeError m => m | Rejected m => m end.

(** The evaluation of an expression: a value, or a thrown error. *)
Inductive result (A : Type) : Type :=
| Ok (a : A)
| Err (e : error).
Arguments Ok {A} a.
Arguments Err {A} e.

Definition rbind {A B} (c : result A) (k : A -> result B)
    : result B :=
  match c with
  | Ok a => k a
  | Err e => Err e
  end.

Definition truthy (v : value) : bool :=
  match v with
  | VUndefined | VNull => false
  | VBool b => b
  | VNum n => negb (n =? 0)%Z
  | VStr s => negb (Text.is_empty s)
  | VArr _ | VObj _ => true
  end.

(** [a || b] *)
Definition or_else (a b : value) : value := if truthy a then a else b.

Definition nullish (v : value) : bool :=
  match v with VUndefined | VNull => true | _ => false end.

Fixpoint lookup (k : string) (props : list (string * value)) : option value :=
  match props with
  | [] => None
  | (k', v) :: ps => if String.eqb k k' then Some v else lookup k ps
  end.

Definition has_own (k : string) (props : list (string * value)) : bool :=
  match lookup k props with Some _ => true | None => false end.

(** Reading a property whose name no built-in prototype defines (every
    name the handlers read is one: note, name, id, line_items, variant_id,
    quantity, order): own properties of an object, [undefined] on any
    other value that is not [null] or [undefined]. *)
Definition own_or_undefined (v : value) (k : string) : value :=
  match v with
  | VObj props => match lookup k props with Some x => x | None => VUndefined end
  | _ => VUndefined
  end.

(** [v?.k] *)
Definition get_opt (v : value) (k : string) : value :=
  if nullish v then VUndefined else own_or_undefined v k.

(** [v.k] *)
Definition get (v : value) (k : string) : result value :=
  if nullish v then
    Err (TypeError ("Cannot read properties of " ++
                      (match v with VNull => "null" | _ => "undefined" end)
                      ++ " (reading '" ++ k ++ "')"))
  else Ok (own_or_undefined v k).

(** [Object.keys] *)
Definition index_keys (n : nat) : list string :=
  map (fun i => NilZero.string_of_int (Z.to_int (Z.of_nat i))) (seq 0 n).

Definition keys (v : value) : result (list string) :=
  match v with
  | VUndefined | VNull =>
      Err (TypeError "Cannot convert undefined or null to object")
  | VObj props => Ok (map fst props)
  | VArr items => Ok (index_keys (List.length items))
  | VStr s => Ok (index_keys (String.length s))
  | VBool _ | VNum _ => Ok []
  end.

(** [ToString], as a template literal applies it.  An object that has an
    own property [toString] cannot be converted: a JSON value is never
    callable, so the own [toString] is skipped, [valueOf] (own or
    inherited) yields no primitive, and a [TypeError] is thrown.  Without
    it, [Object.prototype.toString] answers.  An array is joined with
    commas, [null] and [undefined] elements printing as nothing. *)
Fixpoint to_string (v : value) : result string :=
  match v with
  | VUndefined => Ok "undefined"
  | VNull => Ok "null"
  | VBool true => Ok "true"
  | VBool false => Ok "false"
  | VNum n => Ok (NilZero.string_of_int (Z.to_int n))
  | VStr s => Ok s
  | VArr items =>
      (fix elems (l : list value) : result string :=
         match l with
         | [] => Ok EmptyString
         | x :: rest =>
             rbind (if nullish x then Ok EmptyString else to_string x)
               (fun sx =>
                  match rest with
                  | [] => Ok sx
                  | _ => rbind (elems rest) (fun sr => Ok (sx ++ "," ++ sr))
                  end)
         end) items
  | VObj props =>
      if has_own "toString" props
      then Err (TypeError "Cannot convert object to primitive value")
      else Ok "[object Object]"
  end.

(** [Array.prototype.map] with a callback that can throw. *)
Fixpoint array_map (f : value -> result value) (l : list value)
    : result (list value) :=
  match l with
  | [] => Ok []
  | x :: rest =>
      rbind (f x) (fun y => rbind (array_map f rest) (fun ys => Ok (y :: ys)))
  end.

End JS.

Import JS.

(* ================================================================== *)
(** ** The HTTP surface and the outside world *)

(** What Express sends back.  [NoResponse]: the handler never answers. *)
Inductive payload : Type :=
| Text (s : string)                              (* [res.send(text)] *)
| Json (v : value)                               (* [res.json(v)] *)
| Attachment (content_type filename content : string).

Inductive response : Type :=
| Responded (status : Z) (body : payload)
| NoResponse.

(** A CSV row as [csv-parser] emits it: header name to cell text. *)
Definition row : Type := list (string * string).

Fixpoint field (k : string) (r : row) : option string :=
  match r with
  | [] => None
  | (k', v) :: r' => if String.eqb k k' then Some v else field k r'
  end.

(** The row as a JavaScript object. *)
Definition row_value (r : row) : value :=
  VObj (map (fun kv => (fst kv, VStr (snd kv))) r).

(** [row.k] as a value: the cell, or [undefined]. *)
Definition cell (r : row) (k : string) : value :=
  match field k r with Some s => VStr s | None => VUndefined end.

(** [row.k || d]: the cell when it is there and not empty, else [d]. *)
Definition cell_or (r : row) (k d : string) : string :=
  match field k r with Some s => Text.or_text s d | None => d end.

(** How the parser stream fed by the response body ends. *)
Inductive parsed : Type :=
| Ended (rows : list row)                        (* [data]* then [end] *)
| Failed (rows : list row) (msg : string).       (* [data]* then [error] *)

(** What [https.get(csvUrl, callback)] leads to.  The status code of a
    response is part of the answer; the source never reads it. *)
Inductive fetch_outcome : Type :=
| RequestError (msg : string)     (* [error] on the request; no listener *)
| Response (status : Z) (body : parsed).

(** How an [axios.post] settles: resolved with the response data, or
    rejected with an error carrying [message]. *)
Inductive call_outcome : Type :=
| Resolved (data : value)
| Refused (msg : string).

Record world : Type := {
  fetch : string -> fetch_outcome;
  (** answer to the [i]-th creation post of the request, given its body *)
  create : nat -> value -> call_outcome;
  (** answer to the cancellation post, given its URL *)
  cancel : string -> call_outcome
}.

(** [process.env] *)
Record config : Type := {
  storeDomain : option string;
  accessToken : option string
}.

(** An environment variable inside a template literal. *)
Definition env_text (o : option string) : string :=
  match o with Some s => s | None => "undefined" end.

Definition apiVersion : string := "2024-04".

(** Outbound calls, in the order they are issued. *)
Inductive event : Type :=
| HttpsGet (url : string)
| CreateOrder (url : string) (token : option string) (body : value)
| CancelOrder (url : string) (token : option string).

(* ================================================================== *)
(** ** The handler's effects: outbound calls and the [results] array *)

Record state : Type := {
  trace : list event;
  results : list value
}.

(** How a step of the handler completes; an awaited promise may never
    settle. *)
Inductive completion (A : Type) : Type :=
| Normal (a : A)
| Throw (e : error)
| Pending.
Arguments Normal {A} a.
Arguments Throw {A} e.
Arguments Pending {A}.

Definition M (A : Type) : Type := state -> completion A * state.

Definition ret {A} (a : A) : M A := fun st => (Normal a, st).

Definition throw {A} (e : error) : M A := fun st => (Throw e, st).

(** Awaiting a promise that never settles. *)
Definition never {A} : M A := fun st => (Pending, st).

Definition bind {A B} (m : M A) (k : A -> M B) : M B :=
  fun st =>
    match m st with
    | (Normal a, st') => k a st'
    | (Throw e, st') => (Throw e, st')
    | (Pending, st') => (Pending, st')
    end.

Notation "x <- m ;; k" := (bind m (fun x => k))
  (at level 61, m at next level, right associativity).
Notation "m ;;; k" := (bind m (fun _ => k))
  (at level 61, right associativity).

(** An expression evaluated for its value or its exception. *)
Definition eval {A} (c : result A) : M A :=
  match c with Ok a => ret a | Err e => throw e end.

(** [try { m } catch (err) { h err }]; what [m] did before it threw stays. *)
Definition try_catch {A} (m : M A) (h : error -> M A) : M A :=
  fun st =>
    match m st with
    | (Throw e, st') => h e st'
    | r => r
    end.

Definition emit (ev : event) : M unit :=
  fun st => (Normal tt, {| trace := trace st ++ [ev]; results := results st |}).

(** [results.push(r)] *)
Definition push (r : value) : M unit :=
  fun st => (Normal tt, {| trace := trace st; results := results st ++ [r] |}).

Definition get_results : M (list value) := fun st => (Normal (results st), st).

(** [for (const row of rows) body]; the index counts the iterations. *)
Fixpoint for_of {A} (body : nat -> A -> M unit) (i : nat) (l : list A) : M unit :=
  match l with
  | [] => ret tt
  | x :: rest => body i x ;;; for_of body (S i) rest
  end.

(* ================================================================== *)
(** ** [POST /generate-csv] (index.js, lines 28-49) *)

(** [new Parser({ fields }).parse(data)] of the json2csv package. *)
Definition json2csv : Type := list string -> list value -> result string.

(** [Array.isArray] *)
Definition is_array (v : value) : bool :=
  match v with VArr _ => true | _ => false end.

Definition elements (v : value) : list value :=
  match v with VArr l => l | _ => [] end.

Definition generate_csv (parser : json2csv) (data : value) : response :=
  if negb (is_array data) || (List.length (elements data) =? 0)%nat then
    Responded 400 (Text "Invalid data")
  else
    match rbind (keys (nth 0 (elements data) VUndefined))
                (fun fields => parser fields (elements data)) with
    | Ok csv => Responded 200 (Attachment "text/csv" "order_history.csv" csv)
    | Err _ => Responded 500 (Text "Internal Server Error")
    end.

(* ================================================================== *)
(** ** [POST /process-csv-orders] (index.js, lines 57-173) *)

(** [/https:\/\/[^\s]+\.csv/] *)
Definition csv_url_pattern : Regex.regex :=
  Regex.Seq (Regex.Lit "https://")
    (Regex.Seq (Regex.Plus1 Text.not_space) (Regex.Lit ".csv")).

(** [note.match(pattern)]; only a string has the method. *)
Definition note_match (note : value) : result (option string) :=
  match note with
  | VStr s => Ok (Regex.js_match csv_url_pattern s)
  | _ => Err (TypeError "note.match is not a function")
  end.

(** The text of [${order?.name || order?.id}]. *)
Definition order_label (order : value) : result string :=
  to_string (or_else (get_opt order "name") (get_opt order "id")).

(** [fetchCsv]: the rows are collected while the parser emits them; the
    promise resolves on [end] and rejects on the parser's [error].  An
    [error] of the request itself has no listener and settles nothing. *)
Definition fetchCsv (w : world) (csvUrl : string) : M (list row) :=
  emit (HttpsGet csvUrl) ;;;
  match fetch w csvUrl with
  | RequestError _ => never
  | Response _ (Ended rows) => ret rows
  | Response _ (Failed _ msg) => throw (Rejected msg)
  end.

(** The callback of [order.line_items?.map]. *)
Definition line_item (item : value) : result value :=
  rbind (get item "variant_id") (fun variant_id =>
  rbind (get item "quantity") (fun quantity =>
  Ok (VObj [("variant_id", variant_id);
            ("quantity", or_else quantity (VNum 1))]))).

(** [order.line_items?.map(...) || []] *)
Definition line_items (order : value) : result value :=
  rbind (get order "line_items") (fun items =>
  match items with
  | VUndefined | VNull => Ok (VArr [])
  | VArr l => rbind (array_map line_item l) (fun l' => Ok (VArr l'))
  | _ => Err (TypeError "order.line_items.map is not a function")
  end).

Definition fullName (r : row) : string := cell_or r "name" "Gift Recipient".

(** [const [firstName, ...rest] = fullName.split(" ")] *)
Definition firstName (r : row) : string :=
  hd EmptyString (Text.split " " (fullName r)).

Definition rest (r : row) : list string := tl (Text.split " " (fullName r)).

Definition lastName (r : row) : string :=
  Text.or_text (Text.join " " (rest r)) "Recipient".

Definition customer (r : row) : value :=
  VObj [("first_name", VStr (firstName r));
        ("last_name", VStr (lastName r));
        ("email", VStr (cell_or r "email" "placeholder@example.com"))].

Definition shipping_address (r : row) : value :=
  VObj [("name", VStr (fullName r));
        ("address1", VStr (cell_or r "address1" EmptyString));
        ("address2", VStr (cell_or r "address2" EmptyString));
        ("city", VStr (cell_or r "city" EmptyString));
        ("province", VStr (cell_or r "state" EmptyString));
        ("zip", VStr (cell_or r "zip" EmptyString));
        ("country", VStr "United States")].

(** The child order request built for one row (lines 101-125). *)
Definition newOrder (order : value) (r : row) : result value :=
  rbind (line_items order) (fun items =>
  rbind (order_label order) (fun label =>
  Ok (VObj [("order",
    VObj [("line_items", items);
          ("customer", customer r);
          ("shipping_address", shipping_address r);
          ("financial_status", VStr "paid");
          ("tags", VStr ("Created from CSV of order " ++ label))])]))).

Definition orders_url (cfg : config) : string :=
  "https://" ++ env_text (storeDomain cfg) ++ "/admin/api/" ++ apiVersion
  ++ "/orders.json".

Definition cancel_url (cfg : config) (id : string) : string :=
  "https://" ++ env_text (storeDomain cfg) ++ "/admin/api/" ++ apiVersion
  ++ "/orders/" ++ id ++ "/cancel.json".

(** [await axios.post(orders_url, newOrder, headers)] *)
Definition post_order (cfg : config) (w : world) (i : nat) (body : value)
    : M value :=
  emit (CreateOrder (orders_url cfg) (accessToken cfg) body) ;;;
  match create w i body with
  | Resolved data => ret data
  | Refused msg => throw (Rejected msg)
  end.

(** [await axios.post(cancel_url, {}, headers)] *)
Definition post_cancel (cfg : config) (w : world) (url : string) : M unit :=
  emit (CancelOrder url (accessToken cfg)) ;;;
  match cancel w url with
  | Resolved _ => ret tt
  | Refused msg => throw (Rejected msg)
  end.

(** [createRes.data.order.name] *)
Definition created_name (data : value) : result value :=
  rbind (get data "order") (fun o => get o "name").

(** The body of the loop over the rows (lines 94-149). *)
Definition create_child (cfg : config) (w : world) (order : value)
    (i : nat) (r : row) : M unit :=
  body <- eval (newOrder order r) ;;
  try_catch
    (data <- post_order cfg w i body ;;
     orderName <- eval (created_name data) ;;
     push (VObj [("success", VBool true);
                 ("orderName", orderName);
                 ("address", cell r "address1")]) ;;;
     (* the log line after the push prints the name once more *)
     name <- eval (created_name data) ;;
     _ <- eval (to_string name) ;;
     ret tt)
    (fun err =>
       push (VObj [("success", VBool false);
                   ("error", VStr (message err));
                   ("row", row_value r)])).

(** Cancelling the parent (lines 152-166).  The URL and both log lines
    print [order.id]. *)
Definition cancel_parent (cfg : config) (w : world) (order : value) : M unit :=
  try_catch
    (id <- eval (get order "id") ;;
     idText <- eval (to_string id) ;;
     post_cancel cfg w (cancel_url cfg idText) ;;;
     id' <- eval (get order "id") ;;
     _ <- eval (to_string id') ;;
     ret tt)
    (fun cancelErr =>
       id <- eval (get order "id") ;;
       _ <- eval (to_string id) ;;
       ret tt).

Definition skip_message : string := "No CSV file in note — skipping".

Definition done_message : string := "Orders processed and parent canceled".

(** [order?.note || ''], the empty text standing in for a missing note *)
Definition note_of (order : value) : value :=
  or_else (get_opt order "note") (VStr EmptyString).

(** The [try] block of the handler. *)
Definition split_order (cfg : config) (w : world) (order : value) : M response :=
  _ <- eval (order_label order) ;;                       (* line 60 *)
  csvUrlMatch <- eval (note_match (note_of order)) ;;
  match csvUrlMatch with
  | None =>
      _ <- eval (order_label order) ;;                   (* line 66 *)
      ret (Responded 200 (Text skip_message))
  | Some csvUrl =>
      rows <- fetchCsv w csvUrl ;;
      for_of (create_child cfg w order) 0 rows ;;;
      cancel_parent cfg w order ;;;
      results <- get_results ;;
      ret (Responded 200 (Json (VObj [("message", VStr done_message);
                                      ("results", VArr results)])))
  end.

Definition initial : state := {| trace := []; results := [] |}.

(** The handler: the answer sent and the outbound calls made. *)
Definition process_csv_orders (cfg : config) (w : world) (order : value)
    : response * list event :=
  match split_order cfg w order initial with
  | (Normal res, st) => (res, trace st)
  | (Throw _, st) =>
      (Responded 500 (Json (VObj [("error", VStr "Internal server error")])),
       trace st)
  | (Pending, st) => (NoResponse, trace st)
  end.

(* ================================================================== *)
(** ** Vocabulary of the specification *)

(** Reading a nested field of a request or an answer. *)
Definition path (v : value) (ks : list string) : value :=
  fold_left own_or_undefined ks v.

(** The order-creation bodies and the cancellation URLs of a trace. *)
Definition creations (tr : list event) : list value :=
  flat_map (fun ev => match ev with CreateOrder _ _ b => [b] | _ => [] end) tr.

Definition cancellations (tr : list event) : list string :=
  flat_map (fun ev => match ev with CancelOrder u _ => [u] | _ => [] end) tr.

Definition fetches (tr : list event) : list string :=
  flat_map (fun ev => match ev with HttpsGet u => [u] | _ => [] end) tr.

(** A substring of the form [https://<no-whitespace>.csv]. *)
Definition has_csv_url (note : string) : Prop :=
  exists pre w post,
    note = pre ++ ("https://" ++ w ++ ".csv") ++ post
    /\ w <> EmptyString /\ Text.all Text.not_space w = true.

(** The Order of the data model (specification, section 3): an object with
    an identifier, a display name, a free-text note and a sequence of line
    items, each of them an object.  A field may be missing or [null]. *)
Definition is_identifier (v : value) : bool :=
  match v with VNum _ | VStr _ | VNull | VUndefined => true | _ => false end.

Definition is_text (v : value) : bool :=
  match v with VStr _ | VNull | VUndefined => true | _ => false end.

Definition is_object (v : value) : bool :=
  match v with VObj _ => true | _ => false end.

Definition is_line_items (v : value) : bool :=
  match v with
  | VArr l => forallb is_object l
  | VNull | VUndefined => true
  | _ => false
  end.

Definition is_order (v : value) : bool :=
  is_object v
  && is_identifier (own_or_undefined v "id")
  && is_text (own_or_undefined v "name")
  && is_text (own_or_undefined v "note")
  && is_line_items (own_or_undefined v "line_items").

(** The line items of the inbound order, as a list. *)
Definition inbound_items (order : value) : list value :=
  elements (own_or_undefined order "line_items").

(** A line item carried over unchanged: the two fields as they came. *)
Definition verbatim_item (item : value) : value :=
  VObj [("variant_id", own_or_undefined item "variant_id");
        ("quantity", own_or_undefined item "quantity")].

(** A line item as the request carries it: the quantity as it came when
    it is truthy, 1 otherwise. *)
Definition carried_item (item : value) : value :=
  VObj [("variant_id", own_or_undefined item "variant_id");
        ("quantity",
         if truthy (own_or_undefined item "quantity")
         then own_or_undefined item "quantity" else VNum 1)].

(** The request for row [r] carries the line items unchanged. *)
Definition carries_items_verbatim (order : value) (r : row) : Prop :=
  exists body,
    newOrder order r = Ok body
    /\ path body ["order"; "line_items"]
       = VArr (map verbatim_item (inbound_items order)).

(** The cell [o], or [d] when it is missing or empty. *)
Definition cell_default (o : option string) (d : string) : string :=
  match o with
  | Some s => if Text.is_empty s then d else s
  | None => d
  end.

(** The customer name rule in the words of the workflow description:
    the name field, ["Gift Recipient"] when absent (a blank cell); split
    on single spaces; first token; remaining tokens joined by spaces,
    ["Recipient"] when there are no remaining tokens; the email, a
    placeholder when the row has none. *)
Definition worded_customer (r : row) : value :=
  let name := cell_default (field "name" r) "Gift Recipient" in
  let tokens := Text.split " " name in
  let remaining := tl tokens in
  VObj [("first_name", VStr (hd EmptyString tokens));
        ("last_name", VStr (match remaining with
                            | [] => "Recipient"
                            | _ => Text.join " " remaining
                            end));
        ("email", VStr (cell_default (field "email" r)
                          "placeholder@example.com"))].

(** The same rule by cutting at the first space: what precedes it and what
    follows it. *)
Fixpoint cut_first_space (s : string) : string * string :=
  match s with
  | EmptyString => (EmptyString, EmptyString)
  | String c s' =>
      if Ascii.eqb c " " then (EmptyString, s')
      else let (a, b) := cut_first_space s' in (String c a, b)
  end.

Definition cut_customer (r : row) : value :=
  let name := cell_default (field "name" r) "Gift Recipient" in
  let (first, remainder) := cut_first_space name in
  VObj [("first_name", VStr first);
        ("last_name", VStr (if Text.is_empty remainder then "Recipient"
                            else remainder));
        ("email", VStr (cell_default (field "email" r)
                          "placeholder@example.com"))].

(** A display name the log line can print. *)
Definition printable (v : value) : Prop := exists s, to_string v = Ok s.

(** The creation endpoint answers with display names that are text, as the
    platform's API does. *)
Definition names_are_text (w : world) : Prop :=
  forall i body data name,
    create w i body = Resolved data ->
    created_name data = Ok name ->
    printable name.

(** A result record is a success record or a failure record of its row. *)
Definition record_of (r : row) (rec : value) : Prop :=
  (exists name, rec = VObj [("success", VBool true); ("orderName", name);
                            ("address", cell r "address1")])
  \/ (exists msg, rec = VObj [("success", VBool false); ("error", VStr msg);
                              ("row", row_value r)]).

(** The same world with another answer to the cancellation. *)
Definition with_cancel (w : world) (c : string -> call_outcome) : world :=
  {| fetch := fetch w; create := create w; cancel := c |}.

(** The same world with another answer to the download. *)
Definition with_fetch (w : world) (f : string -> fetch_outcome) : world :=
  {| fetch := f; create := create w; cancel := cancel w |}.

(* ================================================================== *)
(** ** Sample requests *)

Definition shop : config :=
  {| storeDomain := Some "shop.example.com"; accessToken := Some "token" |}.

Definition list_url : string := "https://cdn.example.com/list.csv".

Definition jane : row :=
  [("name", "Jane Doe"); ("email", "jane@x.com"); ("address1", "1 Main St");
   ("city", "Austin"); ("state", "TX"); ("zip", "73301")].

Definition bob : row :=
  [("name", "Bob"); ("address1", "2 Oak Rd"); ("city", "Dallas");
   ("state", "TX"); ("zip", "75201")].

Definition gift_order : value :=
  VObj [("id", VNum 1001); ("name", VStr "#1001");
        ("note", VStr "gift order, see https://cdn.example.com/list.csv for addresses");
        ("line_items",
         VArr [VObj [("variant_id", VNum 7); ("quantity", VNum 2)]])].

Definition plain_order : value :=
  VObj [("id", VNum 1002); ("name", VStr "#1002");
        ("note", VStr "leave at the door");
        ("line_items",
         VArr [VObj [("variant_id", VNum 7); ("quantity", VNum 2)]])].

(** An order with a line item of quantity zero. *)
Definition zero_quantity_order : value :=
  VObj [("id", VNum 1003); ("name", VStr "#1003");
        ("note", VStr "https://cdn.example.com/list.csv");
        ("line_items",
         VArr [VObj [("variant_id", VNum 7); ("quantity", VNum 0)]])].

(** A payload without a note whose name is an object with an own
    [toString] property: [{"name": {"toString": 0}}]. *)
Definition unprintable : value := VObj [("toString", VNum 0)].

Definition odd_payload : value := VObj [("name", unprintable)].

Definition created (name : value) : call_outcome :=
  Resolved (VObj [("order", VObj [("name", name)])]).

(** Every creation succeeds and is named after its position. *)
Definition friendly (f : fetch_outcome) : world :=
  {| fetch := fun _ => f;
     create := fun i _ => created (VStr ("#C" ++ NilZero.string_of_int (Z.to_int (Z.of_nat i))));
     cancel := fun _ => Resolved (VObj []) |}.

(** The second creation is refused (an upstream 422). *)
Definition second_refused (f : fetch_outcome) : world :=
  {| fetch := fun _ => f;
     create := fun i _ => match i with
                          | 1 => Refused "Request failed with status code 422"
                          | _ => created (VStr "#C0")
                          end;
     cancel := fun _ => Resolved (VObj []) |}.

(** The cancellation is refused. *)
Definition cancel_refused (f : fetch_outcome) : world :=
  with_cancel (friendly f) (fun _ => Refused "Request failed with status code 404").

(** The creation endpoint answers with a name that cannot be printed. *)
Definition odd_upstream (f : fetch_outcome) : world :=
  {| fetch := fun _ => f;
     create := fun _ _ => created unprintable;
     cancel := fun _ => Resolved (VObj []) |}.


(* ================================================================== *)
(** ** The runs of the handler, case by case *)

Definition internal_error : response :=
  Responded 500 (Json (VObj [("error", VStr "Internal server error")])).

Definition summary (recs : list value) : response :=
  Responded 200 (Json (VObj [("message", VStr done_message);
                             ("results", VArr recs)])).

(** The two shapes of a result record (lines 139-143 and 147). *)
Definition success_record (name : value) (r : row) : value :=
  VObj [("success", VBool true); ("orderName", name);
        ("address", cell r "address1")].

Definition failure_record (msg : string) (r : row) : value :=
  VObj [("success", VBool false); ("error", VStr msg); ("row", row_value r)].

(** What one iteration leaves in [results], read off the answer to its
    creation post. *)
Definition child_records (w : world) (i : nat) (r : row) (body : value)
    : list value :=
  match create w i body with
  | Refused msg => [failure_record msg r]
  | Resolved data =>
      match created_name data with
      | Err e => [failure_record (message e) r]
      | Ok name =>
          match to_string name with
          | Ok _ => [success_record name r]
          | Err e => [success_record name r; failure_record (message e) r]
          end
      end
  end.

(** The records of the rows from position [i] on. *)
Fixpoint loop_records (w : world) (order : value) (i : nat) (rows : list row)
    : list value :=
  match rows with
  | [] => []
  | r :: rest =>
      (match newOrder order r with
       | Ok body => child_records w i r body
       | Err _ => []
       end ++ loop_records w order (S i) rest)%list
  end.

(** Every way a request to [/process-csv-orders] can go. *)
Inductive run (cfg : config) (w : world) (order : value)
    : response * list event -> Prop :=
| run_label_error e :
    order_label order = Err e ->
    run cfg w order (internal_error, [])
| run_note_error label e :
    order_label order = Ok label ->
    note_match (note_of order) = Err e ->
    run cfg w order (internal_error, [])
| run_skip label :
    order_label order = Ok label ->
    note_match (note_of order) = Ok None ->
    run cfg w order (Responded 200 (Text skip_message), [])
| run_request_error label url msg :
    order_label order = Ok label ->
    note_match (note_of order) = Ok (Some url) ->
    fetch w url = RequestError msg ->
    run cfg w order (NoResponse, [HttpsGet url])
| run_parse_error label url status rows msg :
    order_label order = Ok label ->
    note_match (note_of order) = Ok (Some url) ->
    fetch w url = Response status (Failed rows msg) ->
    run cfg w order (internal_error, [HttpsGet url])
| run_build_error label url status r rows e :
    order_label order = Ok label ->
    note_match (note_of order) = Ok (Some url) ->
    fetch w url = Response status (Ended (r :: rows)) ->
    line_items order = Err e ->
    run cfg w order (internal_error, [HttpsGet url])
| run_cancel_error label url status rows bodies e :
    order_label order = Ok label ->
    note_match (note_of order) = Ok (Some url) ->
    fetch w url = Response status (Ended rows) ->
    Forall2 (fun r b => newOrder order r = Ok b) rows bodies ->
    to_string (own_or_undefined order "id") = Err e ->
    run cfg w order
      (internal_error,
       HttpsGet url :: map (CreateOrder (orders_url cfg) (accessToken cfg)) bodies)
| run_done label url status rows bodies idText :
    order_label order = Ok label ->
    note_match (note_of order) = Ok (Some url) ->
    fetch w url = Response status (Ended rows) ->
    Forall2 (fun r b => newOrder order r = Ok b) rows bodies ->
    to_string (own_or_undefined order "id") = Ok idText ->
    run cfg w order
      (summary (loop_records w order 0 rows),
       HttpsGet url
       :: map (CreateOrder (orders_url cfg) (accessToken cfg)) bodies
       ++ [CancelOrder (cancel_url cfg idText) (accessToken cfg)]).

(** A character other than the space. *)
Definition no_blank (c : ascii) : bool := negb (Ascii.eqb c " ").

(** A value without [null] or [undefined] among the entries. *)
Definition no_nullish (l : list value) : bool :=
  forallb (fun x => negb (nullish x)) l.

(** What [order.line_items?.map(...)] accepts: nothing at all, or an array
    without [null] or [undefined] among its entries. *)
Definition mappable (v : value) : bool :=
  match v with
  | VUndefined | VNull => true
  | VArr l => no_nullish l
  | _ => false
  end.

(* ================================================================== *)
(** ** The second copy of the webhook (index.js, lines 240-362)

    It posts to API version 2025-04, does not log the order on entry, and
    has no log line inside the [try] block of the loop. *)

Definition apiVersion_second : string := "2025-04".

Definition orders_url_second (cfg : config) : string :=
  "https://" ++ env_text (storeDomain cfg) ++ "/admin/api/" ++ apiVersion_second
  ++ "/orders.json".

Definition cancel_url_second (cfg : config) (id : string) : string :=
  "https://" ++ env_text (storeDomain cfg) ++ "/admin/api/" ++ apiVersion_second
  ++ "/orders/" ++ id ++ "/cancel.json".

Definition post_order_second (cfg : config) (w : world) (i : nat) (body : value)
    : M value :=
  emit (CreateOrder (orders_url_second cfg) (accessToken cfg) body) ;;;
  match create w i body with
  | Resolved data => ret data
  | Refused msg => throw (Rejected msg)
  end.

(** The body of the loop (lines 274-330). *)
Definition create_child_second (cfg : config) (w : world) (order : value)
    (i : nat) (r : row) : M unit :=
  body <- eval (newOrder order r) ;;
  try_catch
    (data <- post_order_second cfg w i body ;;
     orderName <- eval (created_name data) ;;
     push (VObj [("success", VBool true);
                 ("orderName", orderName);
                 ("address", cell r "address1")]))
    (fun err =>
       push (VObj [("success", VBool false);
                   ("error", VStr (message err));
                   ("row", row_value r)])).

(** Cancelling the parent (lines 333-352). *)
Definition cancel_parent_second (cfg : config) (w : world) (order : value)
    : M unit :=
  try_catch
    (id <- eval (get order "id") ;;
     idText <- eval (to_string id) ;;
     post_cancel cfg w (cancel_url_second cfg idText) ;;;
     id' <- eval (get order "id") ;;
     _ <- eval (to_string id') ;;
     ret tt)
    (fun cancelErr =>
       id <- eval (get order "id") ;;
       _ <- eval (to_string id) ;;
       ret tt).

Definition split_order_second (cfg : config) (w : world) (order : value)
    : M response :=
  csvUrlMatch <- eval (note_match (note_of order)) ;;
  match csvUrlMatch with
  | None =>
      _ <- eval (order_label order) ;;                   (* line 249 *)
      ret (Responded 200 (Text skip_message))
  | Some csvUrl =>
      rows <- fetchCsv w csvUrl ;;
      for_of (create_child_second cfg w order) 0 rows ;;;
      cancel_parent_second cfg w order ;;;
      results <- get_results ;;
      ret (Responded 200 (Json (VObj [("message", VStr done_message);
                                      ("results", VArr results)])))
  end.

Definition process_csv_orders_second (cfg : config) (w : world) (order : value)
    : response * list event :=
  match split_order_second cfg w order initial with
  | (Normal res, st) => (res, trace st)
  | (Throw _, st) =>
      (Responded 500 (Json (VObj [("error", VStr "Internal server error")])),
       trace st)
  | (Pending, st) => (NoResponse, trace st)
  end.

(** The record of one iteration of the second copy. *)
Definition child_record_second (w : world) (i : nat) (r : row) (body : value)
    : value :=
  match create w i body with
  | Refused msg => failure_record msg r
  | Resolved data =>
      match created_name data with
      | Err e => failure_record (message e) r
      | Ok name => success_record name r
      end
  end.

(** The records of the rows from position [i] on, in the second copy. *)
Fixpoint loop_records_second (w : world) (order : value) (i : nat)
    (rows : list row) : list value :=
  match rows with
  | [] => []
  | r :: rest =>
      (match newOrder order r with
       | Ok body => [child_record_second w i r body]
       | Err _ => []
       end ++ loop_records_second w order (S i) rest)%list
  end.

(** Two states that a caller cannot tell apart but for the URLs posted to:
    the same results, the same downloads, the same creation bodies and as
    many cancellations. *)
Definition alike (st1 st2 : state) : Prop :=
  results st1 = results st2
  /\ fetches (trace st1) = fetches (trace st2)
  /\ creations (trace st1) = creations (trace st2)
  /\ List.length (cancellations (trace st1))
     = List.length (cancellations (trace st2)).

(** What the handler takes from the answer to the download: nothing when
    the request fails, the fact of a parser error, or the decoded rows. *)
Definition decoded (f : fetch_outcome) : option (option (list row)) :=
  match f with
  | RequestError _ => None
  | Response _ (Failed _ _) => Some None
  | Response _ (Ended rows) => Some (Some rows)
  end.

(* ================================================================== *)
(** ** Facts about text *)

Section TextFacts.

Local Open Scope string_scope.

Lemma append_assoc (a b c : string) : (a ++ b) ++ c = a ++ (b ++ c).
Proof. induction a as [|x a IH]; simpl; [reflexivity | now rewrite IH]. Qed.

Lemma append_empty_r (s : string) : s ++ EmptyString = s.
Proof. induction s as [|x s IH]; simpl; [reflexivity | now rewrite IH]. Qed.

Lemma length_append (a b : string) :
  String.length (a ++ b) = (String.length a + String.length b)%nat.
Proof. induction a as [|x a IH]; simpl; [reflexivity | now rewrite IH]. Qed.

Lemma substring_prefix (m rest : string) :
  substring 0 (String.length m) (m ++ rest) = m.
Proof.
  induction m as [|x m IH]; simpl.
  - destruct rest; reflexivity.
  - now rewrite IH.
Qed.

Lemma all_append (p : ascii -> bool) (a b : string) :
  Text.all p (a ++ b) = Text.all p a && Text.all p b.
Proof.
  induction a as [|x a IH]; simpl; [reflexivity|].
  rewrite IH. now rewrite andb_assoc.
Qed.

Lemma strip_prefix_append (p s : string) : Text.strip_prefix p (p ++ s) = Some s.
Proof.
  induction p as [|x p IH]; simpl; [reflexivity|].
  now rewrite Ascii.eqb_refl.
Qed.

Lemma strip_prefix_sound (p s s' : string) :
  Text.strip_prefix p s = Some s' -> s = p ++ s'.
Proof.
  revert s; induction p as [|x p IH]; simpl; intros s H.
  - now inversion H.
  - destruct s as [|y s]; [discriminate|].
    destruct (Ascii.eqb x y) eqn:E; [|discriminate].
    apply Ascii.eqb_eq in E; subst y. now rewrite (IH _ H).
Qed.

(** Splitting never yields an empty list of tokens. *)
Lemma split_not_nil (sep : ascii) (s : string) : Text.split sep s <> [].
Proof.
  induction s as [|c s IH]; simpl; [discriminate|].
  destruct (Ascii.eqb c sep); [discriminate|].
  destruct (Text.split sep s); [contradiction | discriminate].
Qed.

(** Joining the tokens with the separator gives the text back. *)
Lemma join_split (sep : ascii) (s : string) :
  Text.join (String sep EmptyString) (Text.split sep s) = s.
Proof.
  unfold Text.join.
  induction s as [|c s IH]; simpl; [reflexivity|].
  destruct (Ascii.eqb c sep) eqn:E.
  - apply Ascii.eqb_eq in E; subst c.
    pose proof (split_not_nil sep s) as N.
    destruct (Text.split sep s) as [|t ts]; [contradiction|].
    change (String.concat (String sep EmptyString) (EmptyString :: t :: ts))
      with (EmptyString ++ String sep EmptyString ++ String.concat (String sep EmptyString) (t :: ts)).
    now rewrite IH.
  - pose proof (split_not_nil sep s) as N.
    destruct (Text.split sep s) as [|t ts]; [contradiction|].
    destruct ts as [|t' ts].
    + simpl in *. now rewrite IH.
    + change (String.concat (String sep EmptyString) (String c t :: t' :: ts))
        with (String c (t ++ String sep EmptyString ++ String.concat (String sep EmptyString) (t' :: ts))).
      change (String.concat (String sep EmptyString) (t :: t' :: ts))
        with (t ++ String sep EmptyString ++ String.concat (String sep EmptyString) (t' :: ts)) in IH.
      now rewrite IH.
Qed.

(** The tokens are what [cut_first_space] cuts: the head is the part
    before the first space, the others join to the part after it. *)
Lemma split_cut (s : string) :
  hd EmptyString (Text.split " " s) = fst (cut_first_space s)
  /\ Text.join " " (tl (Text.split " " s)) = snd (cut_first_space s).
Proof.
  induction s as [|c s [IH1 IH2]]; simpl; [now split|].
  destruct (Ascii.eqb c " ") eqn:E; simpl.
  - split; [reflexivity|]. apply (join_split " " s).
  - pose proof (split_not_nil " " s) as N.
    destruct (Text.split " " s) as [|t ts]; [contradiction|].
    destruct (cut_first_space s) as [a b]. simpl in *.
    split; [now rewrite IH1 | exact IH2].
Qed.

End TextFacts.

(* ================================================================== *)
(** ** The matcher finds exactly the substrings the pattern describes *)

Section RegexFacts.

Import Regex.
Local Open Scope string_scope.

Lemma plus_class_sound cls k s x :
  plus_class cls k s = Some x ->
  exists w rest, s = w ++ rest /\ w <> EmptyString
                 /\ Text.all cls w = true /\ k rest = Some x.
Proof.
  revert x; induction s as [|c s IH]; simpl; intros x H; [discriminate|].
  destruct (cls c) eqn:Ec; [|discriminate].
  destruct (plus_class cls k s) as [y|] eqn:Ep.
  - inversion H; subst y.
    destruct (IH x eq_refl) as (w & rest & -> & _ & Hall & Hk).
    exists (String c w), rest. simpl. rewrite Ec, Hall.
    repeat split; auto; discriminate.
  - exists (String c EmptyString), s. simpl. rewrite Ec.
    repeat split; auto; discriminate.
Qed.

Lemma plus_class_complete cls k w rest :
  w <> EmptyString -> Text.all cls w = true -> k rest <> None ->
  plus_class cls k (w ++ rest) <> None.
Proof.
  induction w as [|c w IH]; intros Hne Hall Hk; [contradiction|].
  simpl in *. apply andb_true_iff in Hall as [Hc Hw]. rewrite Hc.
  destruct w as [|c' w].
  - simpl. destruct (plus_class cls k rest); [discriminate | exact Hk].
  - assert (H : plus_class cls k (String c' w ++ rest) <> None)
      by (apply IH; [discriminate | exact Hw | exact Hk]).
    destruct (plus_class cls k (String c' w ++ rest)); [discriminate | contradiction].
Qed.

Lemma run_sound r : forall k s x,
  run r k s = Some x ->
  exists m rest, s = m ++ rest /\ matches r m /\ k rest = Some x.
Proof.
  induction r as [p | cls | r1 IH1 r2 IH2]; simpl; intros k s x H.
  - destruct (Text.strip_prefix p s) as [s'|] eqn:E; [|discriminate].
    apply strip_prefix_sound in E. exists p, s'. repeat split; auto. constructor.
  - destruct (plus_class_sound _ _ _ _ H) as (w & rest & -> & Hne & Hall & Hk).
    exists w, rest. repeat split; auto. now constructor.
  - destruct (IH1 _ _ _ H) as (u & s1 & -> & Hu & H2).
    destruct (IH2 _ _ _ H2) as (v & s2 & -> & Hv & Hk).
    exists (u ++ v), s2. rewrite append_assoc. repeat split; auto. now constructor.
Qed.

Lemma run_complete r m :
  matches r m -> forall k rest, k rest <> None -> run r k (m ++ rest) <> None.
Proof.
  induction 1 as [p | cls w Hne Hall | r1 r2 u v Hu IHu Hv IHv];
    intros k rest Hk; simpl.
  - now rewrite strip_prefix_append.
  - now apply plus_class_complete.
  - rewrite append_assoc. apply IHu. now apply IHv.
Qed.

Lemma match_here_sound r s m :
  match_here r s = Some m -> exists rest, s = m ++ rest /\ matches r m.
Proof.
  unfold match_here. destruct (run r Some s) as [x|] eqn:E; [|discriminate].
  intros H; inversion H; subst m; clear H.
  destruct (run_sound _ _ _ _ E) as (m & rest & -> & Hm & Hk).
  inversion Hk; subst x. exists rest.
  rewrite length_append, Nat.add_sub, substring_prefix. now split.
Qed.

Lemma match_here_complete r m rest :
  matches r m -> match_here r (m ++ rest) <> None.
Proof.
  intros Hm. unfold match_here.
  pose proof (run_complete r m Hm Some rest) as H.
  destruct (run r Some (m ++ rest)); [discriminate|].
  exfalso. apply H; [discriminate | reflexivity].
Qed.

(** What [js_match] returns is a substring the pattern matches. *)
Lemma js_match_sound r s m :
  js_match r s = Some m ->
  matches r m /\ exists pre post, s = pre ++ m ++ post.
Proof.
  revert m; induction s as [|c s IH]; intros m; simpl.
  - destruct (match_here r EmptyString) as [m'|] eqn:E; [|discriminate].
    intros H; inversion H; subst m'.
    destruct (match_here_sound _ _ _ E) as (rest & Hs & Hm).
    split; [exact Hm|]. now exists EmptyString, rest.
  - destruct (match_here r (String c s)) as [m'|] eqn:E.
    + intros H; inversion H; subst m'.
      destruct (match_here_sound _ _ _ E) as (rest & Hs & Hm).
      split; [exact Hm|]. now exists EmptyString, rest.
    + intros H. destruct (IH _ H) as (Hm & pre & post & ->).
      split; [exact Hm|]. now exists (String c pre), post.
Qed.

(** It returns one whenever there is one. *)
Lemma js_match_complete r s :
  occurs r s -> exists m, js_match r s = Some m.
Proof.
  intros (pre & m & post & -> & Hm).
  induction pre as [|c pre IH].
  - simpl (EmptyString ++ _).
    pose proof (match_here_complete r m post Hm) as H.
    destruct (m ++ post) as [|c s] eqn:E; simpl;
      destruct (match_here r _) as [m'|]; try contradiction; now exists m'.
  - simpl. destruct (match_here r (String c (pre ++ m ++ post))) as [m'|].
    + now exists m'.
    + exact IH.
Qed.

Lemma csv_url_matches u :
  matches csv_url_pattern u <->
  exists w, u = "https://" ++ w ++ ".csv"
            /\ w <> EmptyString /\ Text.all Text.not_space w = true.
Proof.
  split.
  - intros H. inversion H as [| |r1 r2 a b Ha Hb]; subst.
    inversion Ha; subst. inversion Hb as [| |r1 r2 w c Hw Hc]; subst.
    inversion Hw; subst. inversion Hc; subst. now exists w.
  - intros (w & -> & Hne & Hall).
    unfold csv_url_pattern. repeat constructor; assumption.
Qed.

Lemma has_csv_url_occurs note :
  has_csv_url note <-> occurs csv_url_pattern note.
Proof.
  split.
  - intros (pre & w & post & -> & Hne & Hall).
    exists pre, ("https://" ++ w ++ ".csv"), post. split; [reflexivity|].
    apply csv_url_matches. now exists w.
  - intros (pre & m & post & -> & Hm).
    apply csv_url_matches in Hm as (w & -> & Hne & Hall).
    now exists pre, w, post.
Qed.

(** [note.match] answers [null] exactly on the notes without a CSV link. *)
Lemma no_url_no_match note :
  ~ has_csv_url note -> js_match csv_url_pattern note = None.
Proof.
  intros H. destruct (js_match csv_url_pattern note) as [m|] eqn:E; [|reflexivity].
  exfalso. apply H, has_csv_url_occurs.
  destruct (js_match_sound _ _ _ E) as (Hm & pre & post & ->).
  now exists pre, m, post.
Qed.

Lemma url_match note :
  has_csv_url note ->
  exists url, js_match csv_url_pattern note = Some url
              /\ matches csv_url_pattern url.
Proof.
  intros H. apply has_csv_url_occurs, js_match_complete in H as (m & E).
  exists m. split; [exact E|]. now apply js_match_sound in E.
Qed.

(** The first link wins; within a run of non-blank characters the match
    extends to the last [.csv]; the scheme and at least one character
    before [.csv] are required. *)
Example match_first_link :
  js_match csv_url_pattern "see https://a.example/x.csv and https://b.example/y.csv"
  = Some "https://a.example/x.csv".
Proof. reflexivity. Qed.

Example match_is_greedy :
  js_match csv_url_pattern "https://a.example/x.csv?next=/y.csv now"
  = Some "https://a.example/x.csv?next=/y.csv".
Proof. reflexivity. Qed.

Example match_needs_https :
  js_match csv_url_pattern "http://a.example/x.csv" = None.
Proof. reflexivity. Qed.

Example match_needs_a_character :
  js_match csv_url_pattern "https://.csv" = None.
Proof. reflexivity. Qed.

End RegexFacts.

(* ================================================================== *)
(** ** The steps of the order-split workflow *)

Ltac run_step :=
  unfold create_child, cancel_parent, post_order, post_cancel, fetchCsv,
    get_results, try_catch, bind, eval, ret, throw, never, emit, push;
  simpl.

Lemma cancellations_app (a b : list event) :
  cancellations (a ++ b) = (cancellations a ++ cancellations b)%list.
Proof. apply flat_map_app. Qed.

Lemma creations_app (a b : list event) :
  creations (a ++ b) = (creations a ++ creations b)%list.
Proof. apply flat_map_app. Qed.

Lemma creations_posts url tok (bodies : list value) :
  creations (map (CreateOrder url tok) bodies) = bodies.
Proof. induction bodies as [|b l IH]; simpl; [reflexivity | now rewrite IH]. Qed.

Lemma cancellations_posts url tok (bodies : list value) :
  cancellations (map (CreateOrder url tok) bodies) = [].
Proof. induction bodies as [|b l IH]; simpl; [reflexivity | exact IH]. Qed.

Section Steps.

Variable cfg : config.
Variable w : world.
Variable order : value.

(** *** Building the request *)

Lemma line_item_carried (item : value) :
  nullish item = false -> line_item item = Ok (carried_item item).
Proof.
  intros H. unfold line_item, carried_item, get, or_else. rewrite H. reflexivity.
Qed.

Lemma array_map_line_item (l : list value) :
  forallb is_object l = true -> array_map line_item l = Ok (map carried_item l).
Proof.
  induction l as [|x l IH]; simpl; [reflexivity|].
  intros H. apply andb_true_iff in H as [Hx Hl].
  rewrite line_item_carried by (destruct x; simpl in *; congruence).
  simpl. now rewrite (IH Hl).
Qed.

Lemma is_order_object : is_order order = true -> exists props, order = VObj props.
Proof.
  unfold is_order. destruct order; simpl; try discriminate. intros _. eauto.
Qed.

Lemma is_order_line_items :
  is_order order = true ->
  line_items order = Ok (VArr (map carried_item (inbound_items order))).
Proof.
  intros H. destruct (is_order_object H) as [props ->].
  unfold is_order in H. repeat (apply andb_true_iff in H as [H ?]).
  unfold line_items, inbound_items, get. simpl nullish. cbv iota.
  unfold rbind at 1.
  destruct (own_or_undefined (VObj props) "line_items") as [| | | | |l|];
    try discriminate; try reflexivity.
  unfold is_line_items in *. now rewrite array_map_line_item.
Qed.

Lemma identifier_printable (v : value) :
  is_identifier v = true -> exists s, to_string v = Ok s.
Proof. destruct v; simpl; try discriminate; eauto. Qed.

Lemma text_is_identifier (v : value) : is_text v = true -> is_identifier v = true.
Proof. destruct v; simpl; congruence. Qed.

Lemma is_order_label :
  is_order order = true -> exists label, order_label order = Ok label.
Proof.
  intros H. destruct (is_order_object H) as [props ->].
  unfold is_order in H. repeat (apply andb_true_iff in H as [H ?]).
  unfold order_label, get_opt, or_else. simpl nullish. cbv iota.
  destruct (truthy (own_or_undefined (VObj props) "name"));
    auto using identifier_printable, text_is_identifier.
Qed.

Lemma is_order_id :
  is_order order = true ->
  exists id idText, get order "id" = Ok id /\ to_string id = Ok idText.
Proof.
  intros H. destruct (is_order_object H) as [props ->].
  unfold is_order in H. repeat (apply andb_true_iff in H as [H ?]).
  unfold get. simpl nullish. cbv iota.
  exists (own_or_undefined (VObj props) "id").
  destruct (identifier_printable (own_or_undefined (VObj props) "id")) as [s Hs];
    eauto.
Qed.

Lemma is_order_newOrder (r : row) :
  is_order order = true -> exists body, newOrder order r = Ok body.
Proof.
  intros H. unfold newOrder. rewrite (is_order_line_items H).
  destruct (is_order_label H) as [label ->]. simpl. eauto.
Qed.

Lemma is_order_bodies (rows : list row) :
  is_order order = true ->
  exists bodies, Forall2 (fun r b => newOrder order r = Ok b) rows bodies.
Proof.
  intros H. induction rows as [|r rows [bodies IH]].
  - exists []. constructor.
  - destruct (is_order_newOrder r H) as [b Hb]. exists (b :: bodies). now constructor.
Qed.

(** *** One iteration of the loop *)

(** Either the request cannot be built and the error leaves the loop, or
    exactly one creation call is issued and the iteration completes,
    having appended one record, or two when the created name cannot be
    printed. *)
Lemma create_child_cases (i : nat) (r : row) (st : state) :
  (exists e, newOrder order r = Err e
             /\ create_child cfg w order i r st = (Throw e, st))
  \/ (exists body recs,
        newOrder order r = Ok body
        /\ create_child cfg w order i r st =
           (Normal tt,
            {| trace := trace st ++ [CreateOrder (orders_url cfg) (accessToken cfg) body];
               results := results st ++ recs |})
        /\ recs <> []
        /\ (names_are_text w -> exists rec, recs = [rec] /\ record_of r rec)).
Proof.
  destruct (newOrder order r) as [body|e] eqn:Eb.
  - right. exists body. run_step. rewrite Eb. simpl.
    destruct (create w i body) as [data|msg] eqn:Ec; simpl.
    + destruct (created_name data) as [name|e] eqn:En; simpl.
      * destruct (to_string name) as [s|e] eqn:Es; simpl.
        -- eexists [_]. repeat split; [discriminate|].
           intros _. eexists. split; [reflexivity|]. left. eauto.
        -- eexists [_; _]. rewrite <- app_assoc. repeat split; [discriminate|].
           intros Hw. destruct (Hw _ _ _ _ Ec En) as [s Hs]. congruence.
      * eexists [_]. repeat split; [discriminate|].
        intros _. eexists. split; [reflexivity|]. right. eauto.
    + eexists [_]. repeat split; [discriminate|].
      intros _. eexists. split; [reflexivity|]. right. eauto.
  - left. exists e. run_step. rewrite Eb. simpl. auto.
Qed.

(** *** The loop *)


(** Whatever happens in the loop, it settles, and it issues no
    cancellation. *)
Lemma loop_any (rows : list row) :
  forall i st, exists c st',
    for_of (create_child cfg w order) i rows st = (c, st')
    /\ c <> Pending
    /\ cancellations (trace st') = cancellations (trace st).
Proof.
  induction rows as [|r rows IH]; intros i st.
  - exists (Normal tt), st. simpl. unfold ret. repeat split; congruence.
  - simpl. unfold bind at 1.
    destruct (create_child_cases i r st) as [(e & _ & ->)|(b & recs & _ & -> & _)].
    + exists (Throw e), st. repeat split; congruence.
    + destruct (IH (S i)
                  {| trace := trace st ++ [CreateOrder (orders_url cfg) (accessToken cfg) b];
                     results := results st ++ recs |})
        as (c & st' & -> & Hc & Htr).
      exists c, st'. repeat split; auto.
      rewrite Htr. simpl. rewrite cancellations_app. simpl. now rewrite app_nil_r.
Qed.

(** *** Cancelling the parent *)

(** The cancellation call is issued once when [order.id] can be printed,
    and the step then completes whatever the answer; otherwise no call is
    issued and the error of the conversion leaves the handler. *)
Lemma cancel_parent_cases (st : state) :
  (exists id idText,
      get order "id" = Ok id /\ to_string id = Ok idText
      /\ cancel_parent cfg w order st =
         (Normal tt,
          {| trace := trace st ++ [CancelOrder (cancel_url cfg idText) (accessToken cfg)];
             results := results st |}))
  \/ (exists e, cancel_parent cfg w order st = (Throw e, st)).
Proof.
  run_step.
  destruct (get order "id") as [id|e] eqn:Eg; simpl.
  - destruct (to_string id) as [idText|e] eqn:Es; simpl.
    + left. exists id, idText. repeat split; auto.
      destruct (cancel w (cancel_url cfg idText)); simpl; reflexivity.
    + right. eauto.
  - right. eauto.
Qed.

Lemma cancel_parent_ok (st : state) (id : value) (idText : string) :
  get order "id" = Ok id -> to_string id = Ok idText ->
  cancel_parent cfg w order st =
    (Normal tt,
     {| trace := trace st ++ [CancelOrder (cancel_url cfg idText) (accessToken cfg)];
        results := results st |}).
Proof.
  intros Eg Es.
  destruct (cancel_parent_cases st) as [(id' & t' & Eg' & Es' & ->)|(e & He)].
  - congruence.
  - revert He. run_step. rewrite Eg. simpl. rewrite Es. simpl.
    destruct (cancel w (cancel_url cfg idText)); simpl; discriminate.
Qed.

(** The answer to the cancellation does not show in what the step leaves. *)
Lemma cancel_parent_any_answer (w' : world) (st : state) :
  cancel_parent cfg w' order st = cancel_parent cfg w order st.
Proof.
  run_step.
  destruct (get order "id") as [id|e]; simpl; [|reflexivity].
  destruct (to_string id) as [idText|e]; simpl; [|reflexivity].
  destruct (cancel w' (cancel_url cfg idText)), (cancel w (cancel_url cfg idText));
    reflexivity.
Qed.

End Steps.

(* ================================================================== *)
(** ** Runs of the webhook handler *)

Section Runs.

Variable cfg : config.


(** The answer to the cancellation call changes neither the response nor
    the calls made. *)
Lemma process_any_cancel_answer (w : world) (c : string -> call_outcome)
    (order : value) :
  process_csv_orders cfg (with_cancel w c) order = process_csv_orders cfg w order.
Proof.
  unfold process_csv_orders.
  replace (split_order cfg (with_cancel w c) order initial)
    with (split_order cfg w order initial); [reflexivity|].
  generalize initial as st. intros st.
  unfold split_order.
  change (fetchCsv (with_cancel w c)) with (fetchCsv w).
  change (create_child cfg (with_cancel w c) order) with (create_child cfg w order).
  unfold bind.
  destruct (eval (order_label order) st) as [[?|?|] st0]; try reflexivity.
  destruct (eval (note_match (note_of order)) st0) as [[[url|]|?|] st1];
    try reflexivity.
  destruct (fetchCsv w url st1) as [[rows|?|] st2]; try reflexivity.
  destruct (for_of (create_child cfg w order) 0 rows st2) as [[?|?|] st3];
    try reflexivity.
  now rewrite (cancel_parent_any_answer cfg w order (with_cancel w c)).
Qed.

(** The status code of the download does not show in the run. *)
Lemma status_not_inspected (w : world) (s s' : Z) (body : parsed)
    (order : value) :
  process_csv_orders cfg (with_fetch w (fun _ => Response s body)) order
  = process_csv_orders cfg (with_fetch w (fun _ => Response s' body)) order.
Proof. reflexivity. Qed.

(** A run either makes no cancellation call, or makes exactly one, the
    last call of the run, and answers 200 with the results. *)
Lemma run_shape (w : world) (order : value) :
  cancellations (snd (process_csv_orders cfg w order)) = []
  \/ exists recs id idText,
       get order "id" = Ok id /\ to_string id = Ok idText
       /\ fst (process_csv_orders cfg w order) =
          Responded 200 (Json (VObj [("message", VStr done_message);
                                     ("results", VArr recs)]))
       /\ cancellations (snd (process_csv_orders cfg w order))
          = [cancel_url cfg idText].
Proof.
  destruct (process_csv_orders cfg w order) as [resp tr] eqn:E. simpl.
  revert E. unfold process_csv_orders, split_order.
  unfold bind at 1. destruct (order_label order) as [label|e] eqn:El;
    [|intros E; inversion E; now left].
  unfold eval at 1, ret at 1. unfold bind at 1.
  destruct (note_match (note_of order)) as [[url|]|e];
    [| |intros E; inversion E; now left].
  2:{ intros E; inversion E; now left. }
  unfold eval at 1, ret at 1. unfold bind at 1.
  unfold fetchCsv. unfold bind at 1. unfold emit at 1.
  destruct (fetch w url) as [msg|status [rows|rows msg]];
    try (intros E; inversion E; now left).
  unfold ret at 1. unfold bind at 1.
  destruct (loop_any cfg w order rows 0
              {| trace := trace initial ++ [HttpsGet url];
                 results := results initial |})
    as (c & st' & -> & Hc & Htr). simpl in Htr.
  destruct c as [[]|e|]; [|intros E; inversion E; subst; now left|contradiction].
  unfold bind at 1.
  destruct (cancel_parent_cases cfg w order st')
    as [(id & idText & Eg & Es & ->)|(e & ->)];
    [|intros E; inversion E; subst; now left].
  simpl. intros E; inversion E; subst. right.
  exists (results st'), id, idText.
  rewrite cancellations_app, Htr. auto.
Qed.

Lemma in_cancellations (url : string) (tok : option string) (tr : list event) :
  In (CancelOrder url tok) tr -> In url (cancellations tr).
Proof.
  intros H. unfold cancellations. apply in_flat_map.
  exists (CancelOrder url tok). split; [exact H | now left].
Qed.

(** A parser error aborts the request before any order call. *)
Lemma parse_error_aborts (w : world) (order : value) (label note url : string)
    (status : Z) (rows : list row) (msg : string) :
  order_label order = Ok label ->
  note_of order = VStr note ->
  Regex.js_match csv_url_pattern note = Some url ->
  fetch w url = Response status (Failed rows msg) ->
  process_csv_orders cfg w order =
    (Responded 500 (Json (VObj [("error", VStr "Internal server error")])),
     [HttpsGet url]).
Proof.
  intros El Hn Hm Hf. unfold process_csv_orders, split_order.
  unfold bind at 1. rewrite El. unfold eval at 1, ret at 1.
  unfold bind at 1. rewrite Hn. simpl note_match. rewrite Hm.
  unfold eval at 1, ret at 1.
  unfold bind at 1. unfold fetchCsv. unfold bind at 1. unfold emit at 1.
  rewrite Hf. reflexivity.
Qed.

(** An error of the request itself leaves the webhook unanswered. *)
Lemma request_error_unanswered (w : world) (order : value)
    (label note url msg : string) :
  order_label order = Ok label ->
  note_of order = VStr note ->
  Regex.js_match csv_url_pattern note = Some url ->
  fetch w url = RequestError msg ->
  process_csv_orders cfg w order = (NoResponse, [HttpsGet url]).
Proof.
  intros El Hn Hm Hf. unfold process_csv_orders, split_order.
  unfold bind at 1. rewrite El. unfold eval at 1, ret at 1.
  unfold bind at 1. rewrite Hn. simpl note_match. rewrite Hm.
  unfold eval at 1, ret at 1.
  unfold bind at 1. unfold fetchCsv. unfold bind at 1. unfold emit at 1.
  rewrite Hf. reflexivity.
Qed.

End Runs.

(* ================================================================== *)
(** ** The claims of the specification *)

(** *** The order-split workflow *)






(** C3, as worded, fails: the status code of the download is never read.
    A 404 answer with an empty body decodes to no rows; the parent order is
    cancelled and the webhook is answered 200. *)
Lemma http_error_status_cancels_parent :
  has_csv_url "gift order, see https://cdn.example.com/list.csv for addresses"
  /\ process_csv_orders shop (friendly (Response 404 (Ended []))) gift_order
     = (Responded 200 (Json (VObj [("message", VStr done_message);
                                   ("results", VArr [])])),
        [HttpsGet list_url;
         CancelOrder
           "https://shop.example.com/admin/api/2024-04/orders/1001/cancel.json"
           (Some "token")]).
Proof.
  split.
  - exists "gift order, see ", "cdn.example.com/list", " for addresses".
    split; [reflexivity|]. split; [discriminate | reflexivity].
  - vm_compute. reflexivity.
Qed.

(** C3, amended.  For every webhook request whose note contains a matching
    CSV link, if the parser emits an error while the downloaded body is
    decoded, the whole request fails: the response is HTTP 500 with
    [{error: "Internal server error"}], and no order-creation call and no
    cancellation call is made. *)
Theorem parse_error_fails_atomically
    (cfg : config) (w : world) (payload : value) (note : string) :
  note_of payload = VStr note ->
  has_csv_url note ->
  (forall url, Regex.js_match csv_url_pattern note = Some url ->
               exists status rows msg,
                 fetch w url = Response status (Failed rows msg)) ->
  fst (process_csv_orders cfg w payload)
  = Responded 500 (Json (VObj [("error", VStr "Internal server error")]))
  /\ creations (snd (process_csv_orders cfg w payload)) = []
  /\ cancellations (snd (process_csv_orders cfg w payload)) = [].
Proof.
  intros Hn Hu Hf.
  destruct (url_match note Hu) as (url & Hm & _).
  destruct (Hf url Hm) as (status & rows & msg & Hfail).
  destruct (order_label payload) as [label|e] eqn:El.
  - rewrite (parse_error_aborts cfg w payload label note url status rows msg
               El Hn Hm Hfail). auto.
  - unfold process_csv_orders, split_order. unfold bind at 1. rewrite El.
    simpl. auto.
Qed.

Lemma parse_error_fails_atomically_witness :
  fst (process_csv_orders shop
         (friendly (Response 200 (Failed [jane] "Row exceeds the maximum size")))
         gift_order)
  = Responded 500 (Json (VObj [("error", VStr "Internal server error")]))
  /\ creations (snd (process_csv_orders shop
         (friendly (Response 200 (Failed [jane] "Row exceeds the maximum size")))
         gift_order)) = []
  /\ cancellations (snd (process_csv_orders shop
         (friendly (Response 200 (Failed [jane] "Row exceeds the maximum size")))
         gift_order)) = [].
Proof.
  apply (parse_error_fails_atomically shop
           (friendly (Response 200 (Failed [jane] "Row exceeds the maximum size")))
           gift_order
           "gift order, see https://cdn.example.com/list.csv for addresses").
  - reflexivity.
  - exists "gift order, see ", "cdn.example.com/list", " for addresses".
    split; [reflexivity|]. split; [discriminate | reflexivity].
  - intros url _. exists 200%Z, [jane], "Row exceeds the maximum size". reflexivity.
Defined.

(** C4.  For an Order whose note has no substring of the form
    [https://<no-whitespace>.csv], the handler answers 200 with the skip
    message and makes no outbound call: no download, no creation, no
    cancellation. *)
Theorem no_csv_url_skips
    (cfg : config) (w : world) (order : value) (note : string) :
  is_order order = true ->
  note_of order = VStr note ->
  ~ has_csv_url note ->
  process_csv_orders cfg w order = (Responded 200 (Text skip_message), []).
Proof.
  intros Ho Hn Hu.
  destruct (is_order_label order Ho) as [label El].
  unfold process_csv_orders, split_order.
  unfold bind at 1. rewrite El. unfold eval at 1, ret at 1.
  unfold bind at 1. rewrite Hn. simpl note_match.
  rewrite (no_url_no_match note Hu). reflexivity.
Qed.

Lemma no_csv_url_skips_witness :
  process_csv_orders shop (friendly (Response 200 (Ended [jane]))) plain_order
  = (Responded 200 (Text skip_message), []).
Proof.
  apply (no_csv_url_skips shop (friendly (Response 200 (Ended [jane])))
           plain_order "leave at the door").
  - reflexivity.
  - reflexivity.
  - intros H. apply has_csv_url_occurs, js_match_complete in H.
    destruct H as [m Hm]. vm_compute in Hm. discriminate Hm.
Defined.

(** *** The child order request *)

Lemma cell_or_default (r : row) (k d : string) :
  cell_or r k d = cell_default (field k r) d.
Proof. unfold cell_or, cell_default, Text.or_text. reflexivity. Qed.

Lemma fullName_default (r : row) :
  fullName r = cell_default (field "name" r) "Gift Recipient".
Proof. reflexivity. Qed.

Lemma carried_item_verbatim (item : value) :
  truthy (own_or_undefined item "quantity") = true ->
  carried_item item = verbatim_item item.
Proof. intros H. unfold carried_item, verbatim_item. now rewrite H. Qed.

(** C5, as worded, fails: a line item of quantity 0 is requested with
    quantity 1. *)
Lemma zero_quantity_not_verbatim :
  is_order zero_quantity_order = true
  /\ ~ carries_items_verbatim zero_quantity_order bob.
Proof.
  split; [reflexivity|].
  intros (body & Hb & Hp). vm_compute in Hb. inversion Hb; subst body.
  vm_compute in Hp. discriminate Hp.
Qed.

(** C5, amended.  For every CSV row the request built from an Order carries
    one line item per line item of the Order, in order, each with the
    variant identifier as it came and the quantity as it came when that is
    truthy, 1 otherwise (so a line item with a truthy quantity is carried
    unchanged); the country is "United States", the financial status is
    "paid", and the tag is "Created from CSV of order " followed by the
    order's name, or by its identifier when the name is missing or empty. *)
Theorem child_request_contents (order : value) (r : row) :
  is_order order = true ->
  exists body label,
    newOrder order r = Ok body
    /\ path body ["order"; "line_items"]
       = VArr (map carried_item (inbound_items order))
    /\ (forall item, In item (inbound_items order) ->
          truthy (own_or_undefined item "quantity") = true ->
          carried_item item = verbatim_item item)
    /\ path body ["order"; "shipping_address"; "country"] = VStr "United States"
    /\ path body ["order"; "financial_status"] = VStr "paid"
    /\ to_string (or_else (own_or_undefined order "name")
                          (own_or_undefined order "id")) = Ok label
    /\ path body ["order"; "tags"] = VStr ("Created from CSV of order " ++ label).
Proof.
  intros Ho.
  destruct (is_order_label order Ho) as [label El].
  unfold newOrder. rewrite (is_order_line_items order Ho), El. simpl rbind.
  eexists _, label. split; [reflexivity|].
  repeat split; auto using carried_item_verbatim.
  destruct (is_order_object order Ho) as [props ->]. exact El.
Qed.

Lemma child_request_contents_witness :
  exists body label,
    newOrder zero_quantity_order bob = Ok body
    /\ path body ["order"; "line_items"]
       = VArr (map carried_item (inbound_items zero_quantity_order))
    /\ (forall item, In item (inbound_items zero_quantity_order) ->
          truthy (own_or_undefined item "quantity") = true ->
          carried_item item = verbatim_item item)
    /\ path body ["order"; "shipping_address"; "country"] = VStr "United States"
    /\ path body ["order"; "financial_status"] = VStr "paid"
    /\ to_string (or_else (own_or_undefined zero_quantity_order "name")
                          (own_or_undefined zero_quantity_order "id")) = Ok label
    /\ path body ["order"; "tags"] = VStr ("Created from CSV of order " ++ label).
Proof.
  apply (child_request_contents zero_quantity_order bob). reflexivity.
Defined.

(** C6, as worded, fails: the name "Bob " splits into "Bob" and one empty
    remaining token; the last name is "Recipient", not the empty text the
    remaining tokens join to. *)
Lemma trailing_space_last_name :
  path (customer [("name", "Bob ")]) ["last_name"] = VStr "Recipient"
  /\ path (worded_customer [("name", "Bob ")]) ["last_name"] = VStr EmptyString
  /\ customer [("name", "Bob ")] <> worded_customer [("name", "Bob ")].
Proof. repeat split; try reflexivity. vm_compute. discriminate. Qed.

(** C6, amended.  For every CSV row the name is the row's name field, or
    "Gift Recipient" when that is absent or empty; the first name is the
    part before its first space (all of it when it has none); the last name
    is the part after that space, or "Recipient" when there is no space or
    nothing follows it; the email is the row's, or placeholder@example.com
    when that is absent or empty. *)
Theorem customer_cut_at_first_space (r : row) : customer r = cut_customer r.
Proof.
  unfold customer, cut_customer, firstName, lastName, rest.
  change (cell_or r "email" "placeholder@example.com")
    with (cell_default (field "email" r) "placeholder@example.com").
  change (cell_default (field "name" r) "Gift Recipient") with (fullName r).
  destruct (split_cut (fullName r)) as [H1 H2]. rewrite H1, H2.
  destruct (cut_first_space (fullName r)) as [a b]. reflexivity.
Qed.

(** The two customers of the specification's scenario. *)
Example customer_jane :
  customer jane = VObj [("first_name", VStr "Jane"); ("last_name", VStr "Doe");
                        ("email", VStr "jane@x.com")].
Proof. reflexivity. Qed.

Example customer_bob :
  customer bob = VObj [("first_name", VStr "Bob"); ("last_name", VStr "Recipient");
                       ("email", VStr "placeholder@example.com")].
Proof. reflexivity. Qed.

(** Where the wording and the code agree: everywhere but on a name whose
    only remaining token is empty. *)
Lemma worded_customer_agrees (r : row) :
  tl (Text.split " " (fullName r)) <> [EmptyString] ->
  customer r = worded_customer r.
Proof.
  intros Ht. unfold customer, worded_customer, firstName, lastName, rest in *.
  change (cell_or r "email" "placeholder@example.com")
    with (cell_default (field "email" r) "placeholder@example.com").
  change (cell_default (field "name" r) "Gift Recipient") with (fullName r).
  destruct (tl (Text.split " " (fullName r))) as [|t ts] eqn:E; [reflexivity|].
  unfold Text.or_text, Text.join.
  destruct ts as [|t' ts].
  - simpl. destruct t; [congruence | reflexivity].
  - change (String.concat " " (t :: t' :: ts))
      with (t ++ " " ++ String.concat " " (t' :: ts)).
    destruct t; reflexivity.
Qed.

(** *** Cancelling the parent *)

(** C7.  When a run issues the cancellation call and the call fails, the
    caller still receives HTTP 200 with the message and the results, the
    same response as for any other answer to the cancellation (a success in
    particular), and the cancellation is attempted exactly once. *)
Theorem cancellation_failure_is_silent
    (cfg : config) (w : world) (order : value)
    (url : string) (tok : option string) (msg : string) :
  In (CancelOrder url tok) (snd (process_csv_orders cfg w order)) ->
  cancel w url = Refused msg ->
  exists recs,
    fst (process_csv_orders cfg w order)
    = Responded 200 (Json (VObj [("message", VStr done_message);
                                 ("results", VArr recs)]))
    /\ (forall c : string -> call_outcome,
          fst (process_csv_orders cfg (with_cancel w c) order)
          = Responded 200 (Json (VObj [("message", VStr done_message);
                                       ("results", VArr recs)])))
    /\ cancellations (snd (process_csv_orders cfg w order)) = [url].
Proof.
  intros Hin _. apply in_cancellations in Hin.
  destruct (run_shape cfg w order) as [Hnone|(recs & id & idText & _ & _ & Hr & Hc)].
  - rewrite Hnone in Hin. destruct Hin.
  - exists recs. rewrite Hc in Hin. destruct Hin as [<-|[]].
    repeat split; auto.
    intros c. now rewrite process_any_cancel_answer.
Qed.

Lemma cancellation_failure_witness :
  exists recs,
    fst (process_csv_orders shop (cancel_refused (Response 200 (Ended [jane; bob])))
           gift_order)
    = Responded 200 (Json (VObj [("message", VStr done_message);
                                 ("results", VArr recs)]))
    /\ (forall c : string -> call_outcome,
          fst (process_csv_orders shop
                 (with_cancel (cancel_refused (Response 200 (Ended [jane; bob]))) c)
                 gift_order)
          = Responded 200 (Json (VObj [("message", VStr done_message);
                                       ("results", VArr recs)])))
    /\ cancellations
         (snd (process_csv_orders shop
                 (cancel_refused (Response 200 (Ended [jane; bob]))) gift_order))
       = ["https://shop.example.com/admin/api/2024-04/orders/1001/cancel.json"].
Proof.
  apply (cancellation_failure_is_silent shop
           (cancel_refused (Response 200 (Ended [jane; bob]))) gift_order
           "https://shop.example.com/admin/api/2024-04/orders/1001/cancel.json"
           (Some "token") "Request failed with status code 404").
  - vm_compute. right. right. right. left. reflexivity.
  - reflexivity.
Defined.

(** *** The CSV export *)

(** C8.  On a body that is not an array, or an empty array, [/generate-csv]
    answers HTTP 400 "Invalid data"; the CSV encoder is not consulted and
    no CSV is sent. *)
Theorem generate_csv_invalid_input (parser : json2csv) (data : value) :
  is_array data = false \/ elements data = [] ->
  generate_csv parser data = Responded 400 (Text "Invalid data").
Proof.
  intros [H|H]; unfold generate_csv; rewrite H; [reflexivity|].
  simpl. now rewrite orb_true_r.
Qed.

Lemma generate_csv_invalid_input_witness :
  generate_csv (fun _ _ => Ok "a,b") (VArr []) = Responded 400 (Text "Invalid data")
  /\ generate_csv (fun _ _ => Ok "a,b") (VObj [("a", VNum 1)])
     = Responded 400 (Text "Invalid data").
Proof.
  split.
  - apply (generate_csv_invalid_input (fun _ _ => Ok "a,b") (VArr [])).
    right. reflexivity.
  - apply (generate_csv_invalid_input (fun _ _ => Ok "a,b") (VObj [("a", VNum 1)])).
    left. reflexivity.
Defined.

(** On a non-empty array of records the encoder is given the keys of the
    first record, in iteration order, as its columns, and all the records;
    what it returns is sent as the attachment. *)
Lemma generate_csv_columns (parser : json2csv)
    (props : list (string * value)) (others : list value) :
  generate_csv parser (VArr (VObj props :: others))
  = match parser (map fst props) (VObj props :: others) with
    | Ok csv => Responded 200 (Attachment "text/csv" "order_history.csv" csv)
    | Err _ => Responded 500 (Text "Internal Server Error")
    end.
Proof. reflexivity. Qed.

(** *** Payloads without a note *)

(** C10, as worded, fails: the payload [{"name": {"toString": 0}}] has no
    note, yet the first log line cannot print its name, and the webhook is
    answered 500. *)
Lemma unprintable_label_fails :
  nullish (get_opt odd_payload "note") = true
  /\ process_csv_orders shop (friendly (Response 200 (Ended [bob]))) odd_payload
     = (Responded 500 (Json (VObj [("error", VStr "Internal server error")])), [])
  /\ process_csv_orders shop (friendly (Response 200 (Ended [bob]))) odd_payload
     <> (Responded 200 (Text skip_message), []).
Proof. repeat split; try reflexivity. vm_compute. discriminate. Qed.

(** C10, amended.  For every payload whose note is absent or [null], an
    order or not, and whose name (or identifier, when the name is missing
    or falsy) can be printed, the missing note counts as the empty text, no
    link is found, and the webhook is answered 200 with the skip message
    without any outbound call. *)
Theorem missing_note_skips
    (cfg : config) (w : world) (payload : value) (label : string) :
  nullish (get_opt payload "note") = true ->
  order_label payload = Ok label ->
  process_csv_orders cfg w payload = (Responded 200 (Text skip_message), []).
Proof.
  intros Hn El.
  assert (E : note_of payload = VStr EmptyString).
  { unfold note_of, or_else.
    destruct (get_opt payload "note"); simpl in *; congruence. }
  unfold process_csv_orders, split_order.
  unfold bind at 1. rewrite El. unfold eval at 1, ret at 1.
  unfold bind at 1. rewrite E. reflexivity.
Qed.

Lemma missing_note_skips_witness :
  process_csv_orders shop (friendly (Response 200 (Ended [bob]))) (VArr [VNum 1])
  = (Responded 200 (Text skip_message), [])
  /\ process_csv_orders shop (friendly (Response 200 (Ended [bob])))
       (VObj [("id", VNum 7); ("note", VNull)])
     = (Responded 200 (Text skip_message), []).
Proof.
  split.
  - apply (missing_note_skips shop (friendly (Response 200 (Ended [bob])))
             (VArr [VNum 1]) "undefined"); reflexivity.
  - apply (missing_note_skips shop (friendly (Response 200 (Ended [bob])))
             (VObj [("id", VNum 7); ("note", VNull)]) "7"); reflexivity.
Defined.

(** *** The scenarios of the specification *)

(** Two rows, both created: two results and one cancellation. *)
Example scenario_two_rows :
  fst (process_csv_orders shop (friendly (Response 200 (Ended [jane; bob]))) gift_order)
  = Responded 200
      (Json (VObj
         [("message", VStr done_message);
          ("results",
           VArr [VObj [("success", VBool true); ("orderName", VStr "#C0");
                       ("address", VStr "1 Main St")];
                 VObj [("success", VBool true); ("orderName", VStr "#C1");
                       ("address", VStr "2 Oak Rd")]])]))
  /\ cancellations
       (snd (process_csv_orders shop (friendly (Response 200 (Ended [jane; bob])))
               gift_order))
     = ["https://shop.example.com/admin/api/2024-04/orders/1001/cancel.json"].
Proof. split; vm_compute; reflexivity. Qed.

(** The second of two creations refused: one success record, one failure
    record with the row, and the cancellation still made once. *)
Example scenario_second_refused :
  fst (process_csv_orders shop (second_refused (Response 200 (Ended [jane; bob])))
         gift_order)
  = Responded 200
      (Json (VObj
         [("message", VStr done_message);
          ("results",
           VArr [VObj [("success", VBool true); ("orderName", VStr "#C0");
                       ("address", VStr "1 Main St")];
                 VObj [("success", VBool false);
                       ("error", VStr "Request failed with status code 422");
                       ("row", row_value bob)]])]))
  /\ cancellations
       (snd (process_csv_orders shop (second_refused (Response 200 (Ended [jane; bob])))
               gift_order))
     = ["https://shop.example.com/admin/api/2024-04/orders/1001/cancel.json"].
Proof. split; vm_compute; reflexivity. Qed.

(** A parser error on the sample order: 500 and the download alone. *)
Example scenario_parse_error :
  process_csv_orders shop (friendly (Response 200 (Failed [jane] "Row exceeds the maximum size")))
    gift_order
  = (Responded 500 (Json (VObj [("error", VStr "Internal server error")])),
     [HttpsGet list_url]).
Proof. vm_compute. reflexivity. Qed.

(** A line-items field that is not an array: the first iteration throws
    before any creation, and the parent is not cancelled. *)
Example scenario_malformed_line_items :
  process_csv_orders shop (friendly (Response 200 (Ended [jane])))
    (VObj [("id", VNum 5); ("note", VStr list_url); ("line_items", VStr "x")])
  = (Responded 500 (Json (VObj [("error", VStr "Internal server error")])),
     [HttpsGet list_url]).
Proof. vm_compute. reflexivity. Qed.

(* ================================================================== *)
(** ** Every run, case by case *)

Section Cases.

Variable cfg : config.
Variable w : world.
Variable order : value.

(** One iteration whose request builds: exactly what it leaves. *)
Lemma create_child_exact (i : nat) (r : row) (st : state) (body : value) :
  newOrder order r = Ok body ->
  create_child cfg w order i r st =
    (Normal tt,
     {| trace := trace st ++ [CreateOrder (orders_url cfg) (accessToken cfg) body];
        results := results st ++ child_records w i r body |}).
Proof.
  intros Eb. run_step. rewrite Eb. simpl. unfold child_records.
  destruct (create w i body) as [data|msg]; simpl; [|reflexivity].
  destruct (created_name data) as [name|e]; simpl; [|reflexivity].
  destruct (to_string name) as [s|e]; simpl; [reflexivity|].
  now rewrite <- app_assoc.
Qed.

Lemma create_child_throws (i : nat) (r : row) (st : state) (e : error) :
  newOrder order r = Err e ->
  create_child cfg w order i r st = (Throw e, st).
Proof. intros Eb. run_step. now rewrite Eb. Qed.

Lemma loop_exact (rows : list row) (bodies : list value) :
  Forall2 (fun r b => newOrder order r = Ok b) rows bodies ->
  forall i st,
    for_of (create_child cfg w order) i rows st =
      (Normal tt,
       {| trace := trace st ++ map (CreateOrder (orders_url cfg) (accessToken cfg)) bodies;
          results := results st ++ loop_records w order i rows |}).
Proof.
  induction 1 as [|r b rows bodies Hb _ IH]; intros i st.
  - simpl. unfold ret. rewrite !app_nil_r. now destruct st.
  - simpl. unfold bind at 1. rewrite (create_child_exact i r st b Hb).
    rewrite IH. simpl. rewrite Hb. now rewrite <- !app_assoc.
Qed.

(** Whether the request builds is decided by the order alone. *)
Lemma newOrder_builds_for_all (r r' : row) (b : value) :
  newOrder order r = Ok b -> exists b', newOrder order r' = Ok b'.
Proof.
  unfold newOrder. destruct (line_items order); simpl; [|discriminate].
  destruct (order_label order); simpl; [|discriminate]. eauto.
Qed.

Lemma newOrder_fails_for_all (r r' : row) (e : error) :
  newOrder order r = Err e -> newOrder order r' = Err e.
Proof.
  unfold newOrder. destruct (line_items order); simpl; [|auto].
  destruct (order_label order); simpl; [discriminate|auto].
Qed.

Lemma bodies_of_rows (r : row) (b : value) (rows : list row) :
  newOrder order r = Ok b ->
  exists bodies, Forall2 (fun r b => newOrder order r = Ok b) rows bodies.
Proof.
  intros Hb. induction rows as [|r' rows [bodies IH]].
  - exists []. constructor.
  - destruct (newOrder_builds_for_all r r' b Hb) as [b' Hb'].
    exists (b' :: bodies). now constructor.
Qed.

(** A note with a link belongs to an object. *)
Lemma link_needs_object (url : string) :
  note_match (note_of order) = Ok (Some url) -> exists props, order = VObj props.
Proof.
  unfold note_of, get_opt, or_else.
  destruct order; simpl; try discriminate. eauto.
Qed.

Lemma cancel_parent_throws (st : state) (id : value) (e : error) :
  get order "id" = Ok id -> to_string id = Err e ->
  cancel_parent cfg w order st = (Throw e, st).
Proof. intros Eg Es. run_step. rewrite Eg. simpl. now rewrite Es. Qed.

(** The handler's run is one of the eight cases. *)
Lemma process_run : run cfg w order (process_csv_orders cfg w order).
Proof.
  unfold process_csv_orders, split_order.
  unfold bind at 1. destruct (order_label order) as [label|e] eqn:El;
    [|eapply run_label_error; eauto].
  unfold eval at 1, ret at 1. unfold bind at 1.
  destruct (note_match (note_of order)) as [[url|]|e] eqn:Em;
    [| eapply run_skip; eauto | eapply run_note_error; eauto].
  destruct (link_needs_object url Em) as [props Ho].
  unfold eval at 1, ret at 1. unfold bind at 1.
  unfold fetchCsv. unfold bind at 1. unfold emit at 1.
  destruct (fetch w url) as [msg|status [rows|rows msg]] eqn:Ef;
    [eapply run_request_error; eauto | | eapply run_parse_error; eauto].
  unfold ret at 1. unfold bind at 1.
  assert (Hrows : (exists r rows' e, rows = r :: rows' /\ line_items order = Err e)
                  \/ exists bodies,
                       Forall2 (fun r b => newOrder order r = Ok b) rows bodies).
  { destruct rows as [|r rows']; [right; exists []; constructor|].
    destruct (newOrder order r) as [b|e] eqn:Eb.
    - right. eapply bodies_of_rows; eauto.
    - left. exists r, rows', e. split; [reflexivity|].
      revert Eb. unfold newOrder. destruct (line_items order); simpl; [|congruence].
      rewrite El. discriminate. }
  destruct Hrows as [(r & rows' & e & -> & Hl)|[bodies Hb]].
  - simpl for_of. unfold bind at 1.
    rewrite (create_child_throws 0 r _ e)
      by (unfold newOrder; now rewrite Hl).
    eapply run_build_error; eauto.
  - rewrite (loop_exact rows bodies Hb). unfold bind at 1.
    assert (Eg : get order "id" = Ok (own_or_undefined order "id"))
      by (subst order; reflexivity).
    destruct (to_string (own_or_undefined order "id")) as [idText|e] eqn:Es.
    + rewrite (cancel_parent_ok cfg w order _ _ idText Eg Es). simpl.
      eapply run_done; eauto.
    + rewrite (cancel_parent_throws _ _ e Eg Es). simpl.
      eapply run_cancel_error; eauto.
Qed.

End Cases.

(* ================================================================== *)
(** ** More about the link taken from the note *)

Section Link.

Import Regex.
Local Open Scope string_scope.

Lemma length_zero_empty (s : string) : String.length s = 0%nat -> s = EmptyString.
Proof. destruct s; simpl; [reflexivity | discriminate]. Qed.

Lemma append_cancel_l (a b c : string) : a ++ b = a ++ c -> b = c.
Proof.
  induction a as [|x a IH]; simpl; intros H; [exact H|].
  inversion H. auto.
Qed.

(** Of the ways to stop a greedy [c+], the matcher takes the one that
    leaves the least, when the continuation consumes a fixed amount. *)
Lemma plus_class_longest cls k d s y :
  (forall t x, k t = Some x -> String.length t = (String.length x + d)%nat) ->
  plus_class cls k s = Some y ->
  forall w rest x,
    s = w ++ rest -> w <> EmptyString -> Text.all cls w = true ->
    k rest = Some x ->
    (String.length y <= String.length x)%nat.
Proof.
  intros Hk. revert y. induction s as [|c s IH]; simpl; intros y H; [discriminate|].
  destruct (cls c) eqn:Ec; [|discriminate].
  intros w rest x Hs Hne Hall Hx.
  destruct w as [|c' w']; [contradiction|].
  simpl in Hs. inversion Hs; subst c'. clear Hs.
  simpl in Hall. apply andb_true_iff in Hall as [_ Hall].
  destruct (plus_class cls k s) as [r|] eqn:Ep.
  - inversion H; subst r. destruct w' as [|c2 w2].
    + simpl in *. subst rest.
      destruct (plus_class_sound _ _ _ _ Ep) as (w3 & rest3 & -> & Hne3 & _ & Hk3).
      apply Hk in Hk3. apply Hk in Hx. rewrite length_append in Hx.
      destruct w3; [contradiction|]. simpl in Hx. lia.
    + eapply IH; eauto. discriminate.
  - destruct w' as [|c2 w2].
    + simpl in *. subst rest. assert (x = y) by congruence. subst x. lia.
    + exfalso. subst s.
      apply (plus_class_complete cls k (String c2 w2) rest); auto;
        [discriminate | congruence].
Qed.

Lemma match_here_length r s m :
  match_here r s = Some m ->
  exists rest, run r Some s = Some rest /\ s = m ++ rest.
Proof.
  unfold match_here. destruct (run r Some s) as [x|] eqn:E; [|discriminate].
  intros H; inversion H; subst m; clear H.
  destruct (run_sound _ _ _ _ E) as (m & rest & -> & _ & Hk).
  inversion Hk; subst x. exists rest.
  now rewrite length_append, Nat.add_sub, substring_prefix.
Qed.

(** At one position the link taken is the longest the pattern allows. *)
Lemma csv_match_here_longest s m :
  match_here csv_url_pattern s = Some m ->
  forall u post, s = u ++ post -> matches csv_url_pattern u ->
                 (String.length u <= String.length m)%nat.
Proof.
  intros H u post Hs Hu.
  destruct (match_here_length _ _ _ H) as (rest & Hr & Hm).
  apply csv_url_matches in Hu as (w & -> & Hne & Hall).
  unfold csv_url_pattern in Hr. cbn [run] in Hr.
  rewrite Hs in Hr. rewrite !append_assoc in Hr.
  rewrite (strip_prefix_append "https://") in Hr.
  set (k := fun t : string =>
              match Text.strip_prefix ".csv" t with
              | Some t' => Some t'
              | None => None
              end) in Hr.
  assert (Hk : forall t x, k t = Some x ->
                           String.length t = (String.length x + 4)%nat).
  { intros t x Ht. unfold k in Ht.
    destruct (Text.strip_prefix ".csv" t) as [t'|] eqn:Et; [|discriminate].
    inversion Ht; subst t'. apply strip_prefix_sound in Et. subst t.
    rewrite length_append. simpl. lia. }
  assert (Hx : k (".csv" ++ post) = Some post)
    by (unfold k; now rewrite (strip_prefix_append ".csv")).
  pose proof (plus_class_longest Text.not_space k 4 _ rest Hk Hr
                w (".csv" ++ post) post eq_refl Hne Hall Hx) as Hle.
  assert (Hlen : String.length s = (String.length m + String.length rest)%nat)
    by (rewrite Hm at 1; apply length_append).
  rewrite Hs, length_append in Hlen. lia.
Qed.

(** X1.  The link taken from a note is a part of the note, begins with
    [https://], ends with [.csv] with at least one character between, and
    holds no whitespace. *)
Theorem extracted_link_is_https_csv (note url : string) :
  js_match csv_url_pattern note = Some url ->
  (exists pre post, note = pre ++ url ++ post)
  /\ (exists w, url = "https://" ++ w ++ ".csv" /\ w <> EmptyString)
  /\ Text.all Text.not_space url = true.
Proof.
  intros H. apply js_match_sound in H as (Hm & Hsub).
  apply csv_url_matches in Hm as (w & -> & Hne & Hall).
  repeat split; auto.
  - now exists w.
  - rewrite !all_append, Hall. reflexivity.
Qed.

Lemma extracted_link_witness :
  (exists pre post,
      "gift order, see https://cdn.example.com/list.csv for addresses"
      = pre ++ list_url ++ post)
  /\ (exists w, list_url = "https://" ++ w ++ ".csv" /\ w <> EmptyString)
  /\ Text.all Text.not_space list_url = true.
Proof.
  apply (extracted_link_is_https_csv
           "gift order, see https://cdn.example.com/list.csv for addresses"
           list_url).
  reflexivity.
Defined.

(** X2.  The link taken is the leftmost one in the note, and the longest
    of those that begin there: no substring of the pattern's form begins
    earlier, and none that begins at the same place is longer. *)
Theorem extracted_link_is_leftmost_longest (note url : string) :
  js_match csv_url_pattern note = Some url ->
  exists pre post,
    note = pre ++ url ++ post
    /\ (forall pre' u post',
          note = pre' ++ u ++ post' -> matches csv_url_pattern u ->
          (String.length pre <= String.length pre')%nat)
    /\ (forall u post',
          url ++ post = u ++ post' -> matches csv_url_pattern u ->
          (String.length u <= String.length url)%nat).
Proof.
  revert url. induction note as [|c s IH]; intros url; simpl.
  - destruct (match_here csv_url_pattern EmptyString) as [m|] eqn:E; [|discriminate].
    vm_compute in E. discriminate.
  - destruct (match_here csv_url_pattern (String c s)) as [m|] eqn:E.
    + intros H; inversion H; subst m.
      destruct (match_here_length _ _ _ E) as (rest & _ & Hs).
      exists EmptyString, rest. simpl. repeat split.
      * exact Hs.
      * intros. lia.
      * intros u post' Hu Hm. rewrite <- Hs in Hu.
        eapply csv_match_here_longest; eauto.
    + intros H. destruct (IH _ H) as (pre & post & -> & Hleft & Hlong).
      exists (String c pre), post. simpl. repeat split; auto.
      intros pre' u post' Hs Hm. destruct pre' as [|c' pre'].
      * exfalso. simpl in Hs.
        pose proof (match_here_complete _ u post' Hm) as Hc.
        rewrite <- Hs in Hc. congruence.
      * simpl in Hs. inversion Hs. simpl.
        apply le_n_S. eapply Hleft; eauto.
Qed.

Lemma extracted_link_leftmost_witness :
  exists pre post,
    "see https://a.example/x.csv?next=/y.csv and https://b.example/z.csv"
    = pre ++ "https://a.example/x.csv?next=/y.csv" ++ post
    /\ (forall pre' u post',
          "see https://a.example/x.csv?next=/y.csv and https://b.example/z.csv"
          = pre' ++ u ++ post' -> matches csv_url_pattern u ->
          (String.length pre <= String.length pre')%nat)
    /\ (forall u post',
          "https://a.example/x.csv?next=/y.csv" ++ post = u ++ post' ->
          matches csv_url_pattern u ->
          (String.length u <= String.length "https://a.example/x.csv?next=/y.csv")%nat).
Proof.
  apply (extracted_link_is_leftmost_longest
           "see https://a.example/x.csv?next=/y.csv and https://b.example/z.csv"
           "https://a.example/x.csv?next=/y.csv").
  reflexivity.
Defined.

(** X3.  [note.match] answers [null] exactly on the notes that hold no
    substring of the form [https://<no-whitespace>.csv]. *)
Theorem no_match_iff_no_link (note : string) :
  js_match csv_url_pattern note = None <-> ~ has_csv_url note.
Proof.
  split.
  - intros H Hu. destruct (url_match note Hu) as (url & E & _). congruence.
  - apply no_url_no_match.
Qed.

End Link.

(* ================================================================== *)
(** ** What every run of the webhook keeps *)

Ltac by_cases cfg w order :=
  let R := fresh "R" in
  let E := fresh "E" in
  pose proof (process_run cfg w order) as R;
  remember (process_csv_orders cfg w order) as p eqn:E;
  destruct R; simpl fst in *; simpl snd in *.

Lemma note_match_link (order : value) (url : string) :
  note_match (note_of order) = Ok (Some url) ->
  exists note, note_of order = VStr note
               /\ Regex.js_match csv_url_pattern note = Some url.
Proof.
  unfold note_match. destruct (note_of order); try discriminate.
  intros H; inversion H. eauto.
Qed.

Lemma fetches_posts url tok (bodies : list value) :
  fetches (map (CreateOrder url tok) bodies) = [].
Proof. induction bodies as [|b l IH]; simpl; [reflexivity | exact IH]. Qed.

Lemma fetches_app (a b : list event) :
  fetches (a ++ b) = (fetches a ++ fetches b)%list.
Proof. apply flat_map_app. Qed.


(** X4.  A request leads to at most one download, and what is downloaded
    is the link [note.match] takes from the note. *)
Theorem downloads_only_the_link (cfg : config) (w : world) (order : value) :
  fetches (snd (process_csv_orders cfg w order)) = []
  \/ exists note url,
       note_of order = VStr note
       /\ Regex.js_match csv_url_pattern note = Some url
       /\ fetches (snd (process_csv_orders cfg w order)) = [url].
Proof.
  by_cases cfg w order; try (left; reflexivity); right;
    match goal with
    | H : note_match _ = Ok (Some ?u) |- _ =>
        destruct (note_match_link _ _ H) as (note & Hn & Hm);
        exists note, u; repeat split; auto
    end.
  - change (HttpsGet url :: ?l) with ([HttpsGet url] ++ l)%list.
    now rewrite fetches_app, fetches_posts.
  - change (HttpsGet url :: ?l) with ([HttpsGet url] ++ l)%list.
    now rewrite !fetches_app, fetches_posts.
Qed.


(** X6.  The calls of a run come in one order: first the download, then
    creation posts, all to the orders endpoint with the configured token,
    then at most one cancellation post, to the cancel endpoint of the
    printed identifier and with the same token.  Nothing is posted before
    the download, and nothing after the cancellation. *)
Theorem calls_in_order (cfg : config) (w : world) (order : value) :
  snd (process_csv_orders cfg w order) = []
  \/ exists url bodies tail,
       snd (process_csv_orders cfg w order) =
         (HttpsGet url
          :: map (CreateOrder (orders_url cfg) (accessToken cfg)) bodies
          ++ tail)%list
       /\ (tail = []
           \/ exists idText,
                to_string (own_or_undefined order "id") = Ok idText
                /\ tail = [CancelOrder (cancel_url cfg idText) (accessToken cfg)]).
Proof.
  by_cases cfg w order; try (left; reflexivity); right.
  - exists url, [], []. auto.
  - exists url, [], []. auto.
  - exists url, [], []. auto.
  - exists url, bodies, []. rewrite app_nil_r. auto.
  - exists url, bodies,
      [CancelOrder (cancel_url cfg idText) (accessToken cfg)].
    split; [reflexivity|]. right. exists idText. auto.
Qed.


(** *** Each case decides the run *)

Lemma bodies_unique (order : value) (rows : list row) (b1 b2 : list value) :
  Forall2 (fun r b => newOrder order r = Ok b) rows b1 ->
  Forall2 (fun r b => newOrder order r = Ok b) rows b2 ->
  b1 = b2.
Proof.
  intros H. revert b2. induction H as [|r b rows bs Hb _ IH]; intros b2 H2;
    inversion H2; subst; [reflexivity|].
  f_equal; [congruence | auto].
Qed.

Lemma run_functional (cfg : config) (w : world) (order : value)
    (x y : response * list event) :
  run cfg w order x -> run cfg w order y -> x = y.
Proof.
  intros R1 R2.
  destruct R1; destruct R2; try reflexivity; try congruence;
    repeat match goal with
      | H1 : note_match ?n = Ok (Some ?u), H2 : note_match ?n = Ok (Some ?v) |- _ =>
          assert (u = v) by congruence; subst v; clear H2
      | H1 : fetch ?w ?u = _, H2 : fetch ?w ?u = _ |- _ =>
          rewrite H1 in H2; inversion H2; subst; clear H2
      end;
    try congruence;
    try match goal with
      | H : Forall2 _ (_ :: _) _, L : line_items ?o = Err _ |- _ =>
          inversion H; subst;
          match goal with
          | N : newOrder o _ = Ok _ |- _ =>
              unfold newOrder in N; rewrite L in N; discriminate N
          end
      end.
  - assert (bodies0 = bodies) by (eapply bodies_unique; eauto).
    subst bodies0. reflexivity.
  - assert (idText0 = idText) by congruence. subst idText0.
    assert (bodies0 = bodies) by (eapply bodies_unique; eauto).
    subst bodies0. reflexivity.
Qed.

Lemma run_is_process (cfg : config) (w : world) (order : value)
    (x : response * list event) :
  run cfg w order x -> process_csv_orders cfg w order = x.
Proof. intros R. eapply run_functional; eauto using process_run. Qed.

Lemma link_of_note (order : value) (note url : string) :
  note_of order = VStr note ->
  Regex.js_match csv_url_pattern note = Some url ->
  note_match (note_of order) = Ok (Some url).
Proof. intros -> H. simpl. now rewrite H. Qed.

(** *** Orders whose line items cannot be mapped *)

Lemma array_map_line_item_any (l : list value) :
  no_nullish l = true -> array_map line_item l = Ok (map carried_item l).
Proof.
  induction l as [|x l IH]; simpl; [reflexivity|].
  intros H. apply andb_true_iff in H as [Hx Hl].
  rewrite line_item_carried by (now apply negb_true_iff in Hx).
  simpl. now rewrite (IH Hl).
Qed.

Lemma array_map_line_item_fails (l : list value) :
  no_nullish l = false -> exists e, array_map line_item l = Err e.
Proof.
  induction l as [|x l IH]; simpl; [discriminate|].
  intros H. destruct (nullish x) eqn:Ex.
  - unfold line_item, get. rewrite Ex. simpl. eauto.
  - rewrite line_item_carried by exact Ex. simpl in *.
    destruct (IH H) as [e ->]. simpl. eauto.
Qed.

Lemma line_items_unmappable (order : value) :
  mappable (own_or_undefined order "line_items") = false ->
  exists e, line_items order = Err e.
Proof.
  unfold line_items, get. destruct (nullish order); simpl; [eauto|].
  destruct (own_or_undefined order "line_items") as [| | | | |l|];
    simpl; try discriminate; eauto.
  intros Hl. destruct (array_map_line_item_fails l Hl) as [e ->]. simpl. eauto.
Qed.

(** X8.  The line items of the request can be built exactly when the
    payload is not [null] or [undefined] and its [line_items] field is
    missing, [null], or an array without [null] or [undefined] entries;
    the result then has one entry per entry of the field, each reduced to
    its variant identifier and its quantity (1 when falsy).  Any other
    field, a text or a number or an object, throws. *)
Theorem line_items_builds_iff (order v : value) :
  line_items order = Ok v
  <-> nullish order = false
      /\ mappable (own_or_undefined order "line_items") = true
      /\ v = VArr (map carried_item (inbound_items order)).
Proof.
  unfold line_items, get, inbound_items.
  destruct (nullish order) eqn:En; simpl.
  - split; [discriminate | intros [H _]; discriminate].
  - destruct (own_or_undefined order "line_items") as [| | | | |l|] eqn:El;
      simpl; try (split; [discriminate | intros (_ & H & _); discriminate]);
      try (split; [intros H; inversion H; auto | intros (_ & _ & ->); reflexivity]).
    destruct (no_nullish l) eqn:Hl.
    + rewrite array_map_line_item_any by exact Hl. simpl.
      split; [intros H; inversion H; auto | intros (_ & _ & ->); reflexivity].
    + destruct (array_map_line_item_fails l Hl) as [e ->]. simpl.
      split; [discriminate | intros (_ & H & _); discriminate].
Qed.


(** X9.  When the CSV has at least one row and the line items of the
    payload cannot be mapped, the handler has downloaded the CSV and then
    fails on the first row: the answer is the 500 error, no order is
    created and the parent is not cancelled. *)
Theorem unmappable_line_items_abort
    (cfg : config) (w : world) (order : value) (label note url : string)
    (status : Z) (r : row) (rows : list row) :
  order_label order = Ok label ->
  note_of order = VStr note ->
  Regex.js_match csv_url_pattern note = Some url ->
  fetch w url = Response status (Ended (r :: rows)) ->
  mappable (own_or_undefined order "line_items") = false ->
  process_csv_orders cfg w order = (internal_error, [HttpsGet url]).
Proof.
  intros El Hn Hm Hf Hl. apply run_is_process.
  destruct (line_items_unmappable order Hl) as [e E].
  eapply run_build_error; eauto using link_of_note.
Qed.

Lemma unmappable_line_items_witness :
  process_csv_orders shop (friendly (Response 200 (Ended [jane; bob])))
    (VObj [("id", VNum 5); ("note", VStr list_url); ("line_items", VArr [VNull])])
  = (internal_error, [HttpsGet list_url]).
Proof.
  apply (unmappable_line_items_abort shop
           (friendly (Response 200 (Ended [jane; bob])))
           (VObj [("id", VNum 5); ("note", VStr list_url);
                  ("line_items", VArr [VNull])])
           "5" list_url list_url 200 jane [bob]); reflexivity.
Defined.

(** X10.  A CSV without rows still cancels the parent: when the download
    decodes to no row and the identifier can be printed, no order is
    created, the cancellation is posted and the answer is the summary with
    an empty results list, whatever the line items of the payload are. *)
Theorem empty_csv_cancels_parent
    (cfg : config) (w : world) (order : value) (label note url idText : string)
    (status : Z) :
  order_label order = Ok label ->
  note_of order = VStr note ->
  Regex.js_match csv_url_pattern note = Some url ->
  fetch w url = Response status (Ended []) ->
  to_string (own_or_undefined order "id") = Ok idText ->
  process_csv_orders cfg w order
  = (summary [],
     [HttpsGet url; CancelOrder (cancel_url cfg idText) (accessToken cfg)]).
Proof.
  intros El Hn Hm Hf Hi. apply run_is_process.
  apply (run_done cfg w order label url status [] [] idText);
    eauto using link_of_note.
Qed.

Lemma empty_csv_cancels_parent_witness :
  process_csv_orders shop (friendly (Response 200 (Ended [])))
    (VObj [("id", VNum 5); ("note", VStr list_url); ("line_items", VStr "x")])
  = (summary [],
     [HttpsGet list_url; CancelOrder (cancel_url shop "5") (accessToken shop)]).
Proof.
  apply (empty_csv_cancels_parent shop (friendly (Response 200 (Ended [])))
           (VObj [("id", VNum 5); ("note", VStr list_url);
                  ("line_items", VStr "x")])
           "5" list_url list_url "5" 200); reflexivity.
Defined.

(** X11.  A note that is truthy but not text (a number, [true], an array,
    an object) has no [match] method: the handler answers the 500 error
    and makes no outbound call. *)
Theorem non_text_note_fails
    (cfg : config) (w : world) (order : value) (label : string) :
  order_label order = Ok label ->
  truthy (get_opt order "note") = true ->
  (forall s, get_opt order "note" <> VStr s) ->
  process_csv_orders cfg w order = (internal_error, []).
Proof.
  intros El Ht Hs. apply run_is_process.
  assert (exists e, note_match (note_of order) = Err e) as [e He].
  { unfold note_of, or_else. rewrite Ht.
    destruct (get_opt order "note") as [| | | |s| |]; simpl; eauto.
    now destruct (Hs s). }
  eapply run_note_error; eauto.
Qed.

Lemma non_text_note_fails_witness :
  process_csv_orders shop (friendly (Response 200 (Ended [jane])))
    (VObj [("id", VNum 5); ("note", VNum 42)])
  = (internal_error, []).
Proof.
  apply (non_text_note_fails shop (friendly (Response 200 (Ended [jane])))
           (VObj [("id", VNum 5); ("note", VNum 42)]) "5").
  - reflexivity.
  - reflexivity.
  - intros s. discriminate.
Defined.

(** *** What a summary tells *)

Lemma child_records_not_nil (w : world) (i : nat) (r : row) (body : value) :
  child_records w i r body <> [].
Proof.
  unfold child_records. destruct (create w i body); [|discriminate].
  destruct (created_name data); [|discriminate].
  destruct (to_string a); discriminate.
Qed.

Lemma loop_records_length (w : world) (order : value)
    (rows : list row) (bodies : list value) :
  Forall2 (fun r b => newOrder order r = Ok b) rows bodies ->
  forall i, (List.length rows <= List.length (loop_records w order i rows))%nat.
Proof.
  induction 1 as [|r b rows bodies Hb _ IH]; intros i; simpl; [lia|].
  rewrite Hb, length_app. specialize (IH (S i)).
  pose proof (child_records_not_nil w i r b).
  destruct (child_records w i r b); [contradiction | simpl; lia].
Qed.

Lemma loop_records_incl (w : world) (order : value) (rows : list row) :
  forall k i r body,
    nth_error rows i = Some r ->
    newOrder order r = Ok body ->
    incl (child_records w (k + i) r body) (loop_records w order k rows).
Proof.
  induction rows as [|r0 rows IH]; intros k i r body Hn Hb.
  - destruct i; discriminate.
  - destruct i as [|i]; simpl in Hn.
    + inversion Hn; subst r0. simpl. rewrite Hb, Nat.add_0_r.
      apply incl_appl, incl_refl.
    + simpl. apply incl_appr. replace (k + S i)%nat with (S k + i)%nat by lia.
      now apply IH.
Qed.

(** The summary of a run that decoded [rows]. *)
Lemma summary_of_rows (cfg : config) (w : world) (order : value)
    (note url : string) (status : Z) (rows : list row) (recs : list value) :
  note_of order = VStr note ->
  Regex.js_match csv_url_pattern note = Some url ->
  fetch w url = Response status (Ended rows) ->
  fst (process_csv_orders cfg w order) = summary recs ->
  exists bodies idText,
    Forall2 (fun r b => newOrder order r = Ok b) rows bodies
    /\ recs = loop_records w order 0 rows
    /\ snd (process_csv_orders cfg w order) =
       HttpsGet url
       :: map (CreateOrder (orders_url cfg) (accessToken cfg)) bodies
       ++ [CancelOrder (cancel_url cfg idText) (accessToken cfg)].
Proof.
  intros Hn Hm Hf Hs. pose proof (link_of_note order note url Hn Hm) as Hl.
  by_cases cfg w order; try discriminate Hs.
  assert (url0 = url) by congruence. subst url0.
  rewrite Hf in *.
  match goal with
  | H : Response _ _ = Response _ _ |- _ => inversion H; subst
  end.
  inversion Hs. eauto 6.
Qed.

(** X12.  Whenever the webhook is answered with the summary, every decoded
    row was posted exactly once, in row order, each with the request built
    from it; the results hold at least one record per row; and the parent
    was cancelled by exactly one post. *)
Theorem summary_means_every_row_posted
    (cfg : config) (w : world) (order : value)
    (note url : string) (status : Z) (rows : list row) (recs : list value) :
  note_of order = VStr note ->
  Regex.js_match csv_url_pattern note = Some url ->
  fetch w url = Response status (Ended rows) ->
  fst (process_csv_orders cfg w order) = summary recs ->
  Forall2 (fun r b => newOrder order r = Ok b) rows
    (creations (snd (process_csv_orders cfg w order)))
  /\ (List.length rows <= List.length recs)%nat
  /\ exists u, cancellations (snd (process_csv_orders cfg w order)) = [u].
Proof.
  intros Hn Hm Hf Hs.
  destruct (summary_of_rows cfg w order note url status rows recs Hn Hm Hf Hs)
    as (bodies & idText & Hb & -> & ->).
  change (HttpsGet url :: ?l) with ([HttpsGet url] ++ l)%list.
  rewrite !creations_app, creations_posts, !cancellations_app, cancellations_posts.
  simpl. rewrite app_nil_r. repeat split; eauto using loop_records_length.
Qed.

Lemma summary_means_every_row_posted_witness :
  Forall2 (fun r b => newOrder gift_order r = Ok b) [jane; bob]
    (creations (snd (process_csv_orders shop
        (second_refused (Response 200 (Ended [jane; bob]))) gift_order)))
  /\ (List.length [jane; bob]
      <= List.length [success_record (VStr "#C0") jane;
                      failure_record "Request failed with status code 422" bob])%nat
  /\ exists u,
       cancellations (snd (process_csv_orders shop
           (second_refused (Response 200 (Ended [jane; bob]))) gift_order)) = [u].
Proof.
  apply (summary_means_every_row_posted shop
           (second_refused (Response 200 (Ended [jane; bob]))) gift_order
           "gift order, see https://cdn.example.com/list.csv for addresses"
           list_url 200 [jane; bob]
           [success_record (VStr "#C0") jane;
            failure_record "Request failed with status code 422" bob]);
    reflexivity.
Defined.

(** X13.  In a summary, the record of a row follows from the answer to that
    row's own post, whatever happened to the other rows: a refused post
    leaves the failure record with the refusal's message and the whole
    row; an accepted post whose answer has no readable [order.name] also
    leaves a failure record, with the message of the [TypeError]; an
    accepted post with a name leaves the success record with that name and
    the row's [address1]. *)
Theorem records_follow_answers
    (cfg : config) (w : world) (order : value)
    (note url : string) (status : Z) (rows : list row) (recs : list value)
    (i : nat) (r : row) (body : value) :
  note_of order = VStr note ->
  Regex.js_match csv_url_pattern note = Some url ->
  fetch w url = Response status (Ended rows) ->
  fst (process_csv_orders cfg w order) = summary recs ->
  nth_error rows i = Some r ->
  newOrder order r = Ok body ->
  (forall msg, create w i body = Refused msg ->
               In (failure_record msg r) recs)
  /\ (forall data e, create w i body = Resolved data ->
                     created_name data = Err e ->
                     In (failure_record (message e) r) recs)
  /\ (forall data name, create w i body = Resolved data ->
                        created_name data = Ok name ->
                        In (success_record name r) recs).
Proof.
  intros Hn Hm Hf Hs Hi Hb.
  destruct (summary_of_rows cfg w order note url status rows recs Hn Hm Hf Hs)
    as (_ & _ & _ & -> & _).
  pose proof (loop_records_incl w order rows 0 i r body Hi Hb) as Hin.
  simpl in Hin. unfold child_records in Hin.
  repeat split.
  - intros msg Hc. rewrite Hc in Hin. apply Hin. now left.
  - intros data e Hc He. rewrite Hc, He in Hin. apply Hin. now left.
  - intros data name Hc He. rewrite Hc, He in Hin. apply Hin.
    destruct (to_string name); now left.
Qed.

Lemma records_follow_answers_witness :
  (forall msg,
      create (second_refused (Response 200 (Ended [jane; bob]))) 1
        (VObj [("order",
                VObj [("line_items",
                       VArr [VObj [("variant_id", VNum 7); ("quantity", VNum 2)]]);
                      ("customer", customer bob);
                      ("shipping_address", shipping_address bob);
                      ("financial_status", VStr "paid");
                      ("tags", VStr "Created from CSV of order #1001")])])
      = Refused msg ->
      In (failure_record msg bob)
         [success_record (VStr "#C0") jane;
          failure_record "Request failed with status code 422" bob])
  /\ (forall data e,
        create (second_refused (Response 200 (Ended [jane; bob]))) 1
          (VObj [("order",
                  VObj [("line_items",
                         VArr [VObj [("variant_id", VNum 7); ("quantity", VNum 2)]]);
                        ("customer", customer bob);
                        ("shipping_address", shipping_address bob);
                        ("financial_status", VStr "paid");
                        ("tags", VStr "Created from CSV of order #1001")])])
        = Resolved data ->
        created_name data = Err e ->
        In (failure_record (message e) bob)
           [success_record (VStr "#C0") jane;
            failure_record "Request failed with status code 422" bob])
  /\ (forall data name,
        create (second_refused (Response 200 (Ended [jane; bob]))) 1
          (VObj [("order",
                  VObj [("line_items",
                         VArr [VObj [("variant_id", VNum 7); ("quantity", VNum 2)]]);
                        ("customer", customer bob);
                        ("shipping_address", shipping_address bob);
                        ("financial_status", VStr "paid");
                        ("tags", VStr "Created from CSV of order #1001")])])
        = Resolved data ->
        created_name data = Ok name ->
        In (success_record name bob)
           [success_record (VStr "#C0") jane;
            failure_record "Request failed with status code 422" bob]).
Proof.
  apply (records_follow_answers shop
           (second_refused (Response 200 (Ended [jane; bob]))) gift_order
           "gift order, see https://cdn.example.com/list.csv for addresses"
           list_url 200 [jane; bob]
           [success_record (VStr "#C0") jane;
            failure_record "Request failed with status code 422" bob]
           1 bob); reflexivity.
Defined.

(* ================================================================== *)
(** ** More about the request built for a row *)

Section Names.

Local Open Scope string_scope.

(** A text is its part before the first space, the space and the part
    after it, or has no space at all. *)
Lemma cut_first_space_rebuild (s : string) :
  s = fst (cut_first_space s) ++ " " ++ snd (cut_first_space s)
  \/ (s = fst (cut_first_space s) /\ snd (cut_first_space s) = EmptyString).
Proof.
  induction s as [|c s IH]; simpl; [right; auto|].
  destruct (Ascii.eqb c " ") eqn:E.
  - left. apply Ascii.eqb_eq in E. now subst c.
  - destruct (cut_first_space s) as [a b]. simpl in *.
    destruct IH as [IH|[IH1 IH2]].
    + left. now rewrite IH at 1.
    + right. split; [now rewrite IH1 at 1 | exact IH2].
Qed.

Lemma cut_first_space_no_blank (s : string) :
  Text.all no_blank (fst (cut_first_space s)) = true.
Proof.
  induction s as [|c s IH]; simpl; [reflexivity|].
  destruct (Ascii.eqb c " ") eqn:E; [reflexivity|].
  destruct (cut_first_space s) as [a b]. simpl in *.
  unfold no_blank at 1. now rewrite E.
Qed.

Lemma cell_or_not_empty (r : row) (k d : string) :
  d <> EmptyString -> cell_or r k d <> EmptyString.
Proof.
  intros Hd. unfold cell_or, Text.or_text.
  destruct (field k r) as [s|]; [|exact Hd].
  destruct s; simpl; [exact Hd | discriminate].
Qed.

(** X14.  Nothing of the name is lost in the split: either the first name,
    a space and the last name give the full name back, or the last name is
    the default "Recipient" and the full name is the first name alone or
    the first name followed by one space. *)
Theorem name_is_reassembled (r : row) :
  firstName r ++ " " ++ lastName r = fullName r
  \/ (lastName r = "Recipient"
      /\ (fullName r = firstName r \/ fullName r = firstName r ++ " ")).
Proof.
  unfold firstName, lastName, rest.
  destruct (split_cut (fullName r)) as [H1 H2]. rewrite H1, H2.
  destruct (cut_first_space_rebuild (fullName r)) as [H|[H He]].
  - destruct (snd (cut_first_space (fullName r))) as [|c b] eqn:Eb.
    + right. split; [reflexivity|]. right. exact H.
    + left. unfold Text.or_text. simpl Text.is_empty. cbv iota.
      symmetry. exact H.
  - right. rewrite He. split; [reflexivity|]. left. exact H.
Qed.

(** X15.  In every request the first name holds no space, and the last
    name, the email and the name of the shipping address are never empty:
    a missing or empty cell is replaced by its default. *)
Theorem customer_is_filled (r : row) :
  Text.all no_blank (firstName r) = true
  /\ lastName r <> EmptyString
  /\ fullName r <> EmptyString
  /\ path (customer r) ["email"] <> VStr EmptyString
  /\ path (shipping_address r) ["name"] = VStr (fullName r).
Proof.
  repeat split.
  - unfold firstName. destruct (split_cut (fullName r)) as [H1 _].
    rewrite H1. apply cut_first_space_no_blank.
  - unfold lastName, Text.or_text.
    destruct (Text.join " " (rest r)); simpl; discriminate.
  - apply cell_or_not_empty. discriminate.
  - simpl. intros H. inversion H as [He]. revert He.
    apply cell_or_not_empty. discriminate.
Qed.



End Names.

(* ================================================================== *)
(** ** More about the CSV export *)

(** X17.  [/generate-csv] answers 400 only on a body that is not an array
    or is an empty array: a non-empty array is never turned down as
    invalid. *)
Theorem generate_csv_400_iff (parser : json2csv) (data : value) :
  generate_csv parser data = Responded 400 (Text "Invalid data")
  <-> (is_array data = false \/ elements data = []).
Proof.
  split.
  - unfold generate_csv. destruct data as [| | | | |l|]; simpl; auto.
    destruct l as [|first others]; simpl; auto.
    destruct (rbind (keys first) _); discriminate.
  - intros [H|H]; unfold generate_csv; rewrite H; [reflexivity|].
    simpl. now rewrite orb_true_r.
Qed.

(** X18.  [/generate-csv] answers 500 exactly on a non-empty array whose
    first element is [null] (its keys cannot be listed) or on which the
    encoder, given the keys of the first element as columns, throws.  In
    particular the body [[null]] is answered 500, not 400. *)
Theorem generate_csv_500_iff (parser : json2csv) (data : value) :
  generate_csv parser data = Responded 500 (Text "Internal Server Error")
  <-> exists first others,
        data = VArr (first :: others)
        /\ (nullish first = true
            \/ exists fields e,
                 keys first = Ok fields
                 /\ parser fields (first :: others) = Err e).
Proof.
  split.
  - unfold generate_csv. destruct data as [| | | | |l|]; simpl; try discriminate.
    destruct l as [|first others]; simpl; [discriminate|].
    intros H. exists first, others. split; [reflexivity|].
    destruct (keys first) as [fields|e] eqn:Ek; simpl in H.
    + right. destruct (parser fields (first :: others)) eqn:Ep;
        [discriminate | eauto].
    + left. destruct first; simpl in *; try discriminate; reflexivity.
  - intros (first & others & -> & [Hn|(fields & e & Hk & Hp)]);
      unfold generate_csv; simpl.
    + destruct first; simpl in *; try discriminate; reflexivity.
    + rewrite Hk. simpl. now rewrite Hp.
Qed.

(** X19.  [/generate-csv] sends a CSV exactly when the body is a non-empty
    array whose first element has keys and the encoder succeeds on these
    keys and the whole array; what is sent is the encoder's text,
    unchanged, as the attachment [order_history.csv] of type [text/csv].
    The later elements take no part in the choice of the columns. *)
Theorem generate_csv_sends_iff (parser : json2csv) (data : value) (csv : string) :
  generate_csv parser data
  = Responded 200 (Attachment "text/csv" "order_history.csv" csv)
  <-> exists first others fields,
        data = VArr (first :: others)
        /\ keys first = Ok fields
        /\ parser fields (first :: others) = Ok csv.
Proof.
  split.
  - unfold generate_csv. destruct data as [| | | | |l|]; simpl; try discriminate.
    destruct l as [|first others]; simpl; [discriminate|].
    intros H. exists first, others.
    destruct (keys first) as [fields|e]; simpl in H; [|discriminate].
    exists fields. destruct (parser fields (first :: others)) eqn:Ep;
      [|discriminate].
    inversion H. auto.
  - intros (first & others & fields & -> & Hk & Hp).
    unfold generate_csv. simpl. rewrite Hk. simpl. now rewrite Hp.
Qed.

(* ================================================================== *)
(** ** The second copy of the webhook *)

Section SecondCopy.

Variable cfg : config.
Variable w : world.
Variable order : value.

Ltac run_second :=
  unfold create_child_second, cancel_parent_second, post_order_second,
    post_cancel, get_results, try_catch, bind, eval, ret, throw, emit, push;
  simpl.

Lemma create_child_second_exact (i : nat) (r : row) (st : state) (body : value) :
  newOrder order r = Ok body ->
  create_child_second cfg w order i r st =
    (Normal tt,
     {| trace := trace st
                 ++ [CreateOrder (orders_url_second cfg) (accessToken cfg) body];
        results := results st ++ [child_record_second w i r body] |}).
Proof.
  intros Eb. run_second. rewrite Eb. simpl. unfold child_record_second.
  destruct (create w i body) as [data|msg]; simpl; [|reflexivity].
  destruct (created_name data) as [name|e]; reflexivity.
Qed.

Lemma create_child_second_throws (i : nat) (r : row) (st : state) (e : error) :
  newOrder order r = Err e ->
  create_child_second cfg w order i r st = (Throw e, st).
Proof. intros Eb. run_second. now rewrite Eb. Qed.

Lemma loop_second_exact (rows : list row) (bodies : list value) :
  Forall2 (fun r b => newOrder order r = Ok b) rows bodies ->
  forall i st,
    for_of (create_child_second cfg w order) i rows st =
      (Normal tt,
       {| trace := trace st
                   ++ map (CreateOrder (orders_url_second cfg) (accessToken cfg))
                        bodies;
          results := results st ++ loop_records_second w order i rows |}).
Proof.
  induction 1 as [|r b rows bodies Hb _ IH]; intros i st.
  - simpl. unfold ret. rewrite !app_nil_r. now destruct st.
  - simpl. unfold bind at 1. rewrite (create_child_second_exact i r st b Hb).
    rewrite IH. simpl. rewrite Hb. now rewrite <- !app_assoc.
Qed.

Lemma loop_records_second_one_per_row (rows : list row) (bodies : list value) :
  Forall2 (fun r b => newOrder order r = Ok b) rows bodies ->
  forall i, Forall2 record_of rows (loop_records_second w order i rows).
Proof.
  induction 1 as [|r b rows bodies Hb _ IH]; intros i; simpl; [constructor|].
  rewrite Hb. simpl. constructor; [|apply IH].
  unfold child_record_second, record_of, success_record, failure_record.
  destruct (create w i b) as [data|msg]; [|right; eauto].
  destruct (created_name data) as [name|e]; [left|right]; eauto.
Qed.

Lemma cancel_parent_second_ok (st : state) (id : value) (idText : string) :
  get order "id" = Ok id -> to_string id = Ok idText ->
  cancel_parent_second cfg w order st =
    (Normal tt,
     {| trace := trace st
                 ++ [CancelOrder (cancel_url_second cfg idText) (accessToken cfg)];
        results := results st |}).
Proof.
  intros Eg Es. run_second. rewrite Eg. simpl. rewrite Es. simpl.
  destruct (cancel w (cancel_url_second cfg idText)); simpl;
    rewrite ?Eg; simpl; rewrite ?Es; reflexivity.
Qed.

(** With display names that are text, an iteration of the first copy
    leaves the one record the second copy leaves. *)
Lemma child_records_second (i : nat) (r : row) (body : value) :
  names_are_text w ->
  child_records w i r body = [child_record_second w i r body].
Proof.
  intros Hw. unfold child_records, child_record_second.
  destruct (create w i body) as [data|msg] eqn:Ec; [|reflexivity].
  destruct (created_name data) as [name|e] eqn:En; [|reflexivity].
  destruct (Hw _ _ _ _ Ec En) as [s ->]. reflexivity.
Qed.

Lemma alike_refl (st : state) : alike st st.
Proof. repeat split. Qed.

Lemma alike_emit (st1 st2 : state) (ev1 ev2 : event) (rs : list value) :
  alike st1 st2 ->
  fetches [ev1] = fetches [ev2] ->
  creations [ev1] = creations [ev2] ->
  List.length (cancellations [ev1]) = List.length (cancellations [ev2]) ->
  alike {| trace := trace st1 ++ [ev1]; results := results st1 ++ rs |}
        {| trace := trace st2 ++ [ev2]; results := results st2 ++ rs |}.
Proof.
  intros (Hr & Hf & Hc & Hn) Hf' Hc' Hn'. unfold alike. simpl.
  rewrite !fetches_app, !creations_app, !cancellations_app, !length_app.
  rewrite Hr, Hf, Hc, Hn, Hf', Hc', Hn'. repeat split.
Qed.

(** The two copies take an iteration alike. *)
Lemma create_child_alike (i : nat) (r : row) (st1 st2 : state) :
  names_are_text w -> alike st1 st2 ->
  exists c st1' st2',
    create_child cfg w order i r st1 = (c, st1')
    /\ create_child_second cfg w order i r st2 = (c, st2')
    /\ alike st1' st2'.
Proof.
  intros Hw Ha. destruct (newOrder order r) as [body|e] eqn:Eb.
  - rewrite (create_child_exact cfg w order i r st1 body Eb),
            (create_child_second_exact i r st2 body Eb),
            (child_records_second i r body Hw).
    do 3 eexists. split; [reflexivity|]. split; [reflexivity|].
    now apply alike_emit.
  - rewrite (create_child_throws cfg w order i r st1 e Eb),
            (create_child_second_throws i r st2 e Eb).
    do 3 eexists. split; [reflexivity|]. split; [reflexivity|]. exact Ha.
Qed.

Lemma loop_alike (rows : list row) :
  names_are_text w ->
  forall i st1 st2, alike st1 st2 ->
  exists c st1' st2',
    for_of (create_child cfg w order) i rows st1 = (c, st1')
    /\ for_of (create_child_second cfg w order) i rows st2 = (c, st2')
    /\ alike st1' st2'.
Proof.
  intros Hw. induction rows as [|r rows IH]; intros i st1 st2 Ha.
  - simpl. unfold ret. eauto 6.
  - simpl. unfold bind.
    destruct (create_child_alike i r st1 st2 Hw Ha)
      as (c & st1' & st2' & -> & -> & Ha').
    destruct c as [[]|e|]; eauto 6.
Qed.

Lemma cancel_alike (st1 st2 : state) :
  alike st1 st2 ->
  exists c st1' st2',
    cancel_parent cfg w order st1 = (c, st1')
    /\ cancel_parent_second cfg w order st2 = (c, st2')
    /\ alike st1' st2'.
Proof.
  intros Ha. run_step. run_second.
  destruct (get order "id") as [id|e]; simpl; [|eauto 6].
  destruct (to_string id) as [idText|e]; simpl; [|eauto 6].
  exists (Normal tt).
  do 2 eexists. split; [|split].
  - destruct (cancel w (cancel_url cfg idText)); reflexivity.
  - destruct (cancel w (cancel_url_second cfg idText)); reflexivity.
  - destruct Ha as (Hr & Hf & Hc & Hn). unfold alike. simpl.
    rewrite !fetches_app, !creations_app, !cancellations_app, !length_app.
    rewrite Hr, Hf, Hc, Hn. repeat split.
Qed.

Lemma split_alike (label : string) :
  order_label order = Ok label ->
  names_are_text w ->
  exists c st1 st2,
    split_order cfg w order initial = (c, st1)
    /\ split_order_second cfg w order initial = (c, st2)
    /\ alike st1 st2.
Proof.
  intros El Hw. unfold split_order, split_order_second.
  cbv beta iota delta [bind eval ret throw never fetchCsv emit get_results].
  rewrite El. cbv beta iota.
  destruct (note_match (note_of order)) as [[url|]|e]; cbv beta iota;
    try (do 3 eexists; split; [reflexivity|]; split; [reflexivity|];
         apply alike_refl).
  destruct (fetch w url) as [msg|status [rows|rows msg]]; cbv beta iota;
    try (do 3 eexists; split; [reflexivity|]; split; [reflexivity|];
         apply alike_refl).
  destruct (loop_alike rows Hw 0 _ _
              (alike_refl {| trace := trace initial ++ [HttpsGet url];
                             results := results initial |}))
    as (c & st1 & st2 & -> & -> & Ha).
  destruct c as [[]|e|]; cbv beta iota; [|eauto 6|eauto 6].
  destruct (cancel_alike st1 st2 Ha) as (c & st1' & st2' & -> & -> & Ha').
  destruct c as [[]|e|]; cbv beta iota; [|eauto 6|eauto 6].
  destruct Ha' as (Hr & Hrest). rewrite Hr.
  do 3 eexists. split; [reflexivity|]. split; [reflexivity|].
  split; [exact Hr | exact Hrest].
Qed.

End SecondCopy.

(** X20.  In the second copy of the webhook one row never leaves two
    records: for an Order whose link decodes to [rows], whatever the
    creation endpoint answers, the summary carries exactly one record per
    row, in row order, each the success or the failure record of its row,
    after one creation post per row and one cancellation post. *)
Theorem second_copy_one_record_per_row
    (cfg : config) (w : world) (order : value) (note url : string)
    (status : Z) (rows : list row) :
  is_order order = true ->
  note_of order = VStr note ->
  Regex.js_match csv_url_pattern note = Some url ->
  fetch w url = Response status (Ended rows) ->
  exists recs,
    fst (process_csv_orders_second cfg w order) = summary recs
    /\ Forall2 record_of rows recs
    /\ List.length recs = List.length rows
    /\ List.length (creations (snd (process_csv_orders_second cfg w order)))
       = List.length rows
    /\ List.length (cancellations (snd (process_csv_orders_second cfg w order)))
       = 1%nat.
Proof.
  intros Ho Hn Hm Hf.
  destruct (is_order_bodies order rows Ho) as [bodies Hb].
  destruct (is_order_id order Ho) as (id & idText & Eg & Es).
  assert (E : process_csv_orders_second cfg w order
              = (summary (loop_records_second w order 0 rows),
                 [HttpsGet url]
                 ++ map (CreateOrder (orders_url_second cfg) (accessToken cfg)) bodies
                 ++ [CancelOrder (cancel_url_second cfg idText) (accessToken cfg)])%list).
  { unfold process_csv_orders_second, split_order_second.
    unfold bind at 1. rewrite Hn. simpl note_match. rewrite Hm.
    unfold eval at 1, ret at 1.
    unfold bind at 1. unfold fetchCsv. unfold bind at 1. unfold emit at 1.
    rewrite Hf. unfold ret at 1. unfold bind at 1.
    rewrite (loop_second_exact cfg w order rows bodies Hb).
    unfold bind at 1.
    rewrite (cancel_parent_second_ok cfg w order _ id idText Eg Es).
    reflexivity. }
  rewrite E. cbn [fst snd].
  exists (loop_records_second w order 0 rows).
  pose proof (loop_records_second_one_per_row w order rows bodies Hb 0) as Hr.
  split; [reflexivity|]. split; [exact Hr|].
  split; [symmetry; eapply Forall2_length; eauto|].
  rewrite !creations_app, creations_posts, !cancellations_app, cancellations_posts.
  simpl. rewrite app_nil_r. split; [|reflexivity].
  symmetry. eapply Forall2_length; eauto.
Qed.

Lemma second_copy_one_record_per_row_witness :
  exists recs,
    fst (process_csv_orders_second shop (odd_upstream (Response 200 (Ended [bob])))
           gift_order) = summary recs
    /\ Forall2 record_of [bob] recs
    /\ List.length recs = List.length [bob]
    /\ List.length (creations (snd (process_csv_orders_second shop
           (odd_upstream (Response 200 (Ended [bob]))) gift_order)))
       = List.length [bob]
    /\ List.length (cancellations (snd (process_csv_orders_second shop
           (odd_upstream (Response 200 (Ended [bob]))) gift_order)))
       = 1%nat.
Proof.
  apply (second_copy_one_record_per_row shop
           (odd_upstream (Response 200 (Ended [bob]))) gift_order
           "gift order, see https://cdn.example.com/list.csv for addresses"
           list_url 200 [bob]); reflexivity.
Defined.

(** X21.  The two copies of the webhook cannot be told apart by the caller
    when the order's label can be printed and the created names are text:
    on every payload and against the same answers they send the same
    response, download the same link and post the same creation bodies,
    and they make as many cancellation posts; only the API version in the
    URLs differs. *)
Theorem copies_agree
    (cfg : config) (w : world) (order : value) (label : string) :
  order_label order = Ok label ->
  names_are_text w ->
  fst (process_csv_orders_second cfg w order) = fst (process_csv_orders cfg w order)
  /\ fetches (snd (process_csv_orders_second cfg w order))
     = fetches (snd (process_csv_orders cfg w order))
  /\ creations (snd (process_csv_orders_second cfg w order))
     = creations (snd (process_csv_orders cfg w order))
  /\ List.length (cancellations (snd (process_csv_orders_second cfg w order)))
     = List.length (cancellations (snd (process_csv_orders cfg w order))).
Proof.
  intros El Hw.
  destruct (split_alike cfg w order label El Hw)
    as (c & st1 & st2 & E1 & E2 & (_ & Hf & Hc & Hn)).
  unfold process_csv_orders, process_csv_orders_second. rewrite E1, E2.
  destruct c as [res|e|]; simpl; auto.
Qed.

Lemma copies_agree_witness :
  fst (process_csv_orders_second shop
         (second_refused (Response 200 (Ended [jane; bob]))) gift_order)
  = fst (process_csv_orders shop
           (second_refused (Response 200 (Ended [jane; bob]))) gift_order)
  /\ fetches (snd (process_csv_orders_second shop
         (second_refused (Response 200 (Ended [jane; bob]))) gift_order))
     = fetches (snd (process_csv_orders shop
         (second_refused (Response 200 (Ended [jane; bob]))) gift_order))
  /\ creations (snd (process_csv_orders_second shop
         (second_refused (Response 200 (Ended [jane; bob]))) gift_order))
     = creations (snd (process_csv_orders shop
         (second_refused (Response 200 (Ended [jane; bob]))) gift_order))
  /\ List.length (cancellations (snd (process_csv_orders_second shop
         (second_refused (Response 200 (Ended [jane; bob]))) gift_order)))
     = List.length (cancellations (snd (process_csv_orders shop
         (second_refused (Response 200 (Ended [jane; bob]))) gift_order))).
Proof.
  apply (copies_agree shop (second_refused (Response 200 (Ended [jane; bob])))
           gift_order "#1001").
  - reflexivity.
  - intros i body data name Hc Hn.
    destruct i as [|[|i]]; simpl in Hc; try discriminate Hc;
      inversion Hc; subst data; vm_compute in Hn; inversion Hn; subst name;
      exists "#C0"; reflexivity.
Defined.

(* ================================================================== *)
(** ** What the outcome depends on *)

Lemma no_match_iff_no_link_aux (note : string) :
  Regex.js_match csv_url_pattern note = None -> ~ has_csv_url note.
Proof.
  intros H Hu. destruct (url_match note Hu) as (url & E & _). congruence.
Qed.

(** X22.  The skip message is sent only for a note without a link: the
    webhook is answered with it exactly when the order's label can be
    printed and the note, read as the empty text when falsy, is a text
    that holds no substring of the form [https://<no-whitespace>.csv]. *)
Theorem skip_iff_no_link (cfg : config) (w : world) (order : value) :
  fst (process_csv_orders cfg w order) = Responded 200 (Text skip_message)
  <-> exists label note,
        order_label order = Ok label
        /\ note_of order = VStr note
        /\ ~ has_csv_url note.
Proof.
  split.
  - by_cases cfg w order; intros Hs; try discriminate Hs.
    unfold note_match in *. destruct (note_of order) as [| | | |s| |];
      try discriminate.
    exists label, s. repeat split; auto.
    apply no_match_iff_no_link_aux. congruence.
  - intros (label & note & El & Hn & Hu).
    assert (Hnm : note_match (note_of order) = Ok None)
      by (rewrite Hn; simpl; now rewrite (no_url_no_match note Hu)).
    now rewrite (run_is_process cfg w order _
                   (run_skip cfg w order label El Hnm)).
Qed.

(** X23.  The calls a request makes depend on the payload, on the
    configuration and on the answer to the download alone: two worlds that
    answer the download alike lead to the same calls, in the same order,
    whatever they answer to the creation and cancellation posts; and the
    one is answered with a summary exactly when the other is. *)
Theorem calls_do_not_depend_on_answers
    (cfg : config) (w w' : world) (order : value) :
  (forall url, fetch w' url = fetch w url) ->
  snd (process_csv_orders cfg w' order) = snd (process_csv_orders cfg w order)
  /\ ((exists recs, fst (process_csv_orders cfg w order) = summary recs)
      <-> (exists recs, fst (process_csv_orders cfg w' order) = summary recs)).
Proof.
  intros Hf.
  assert (R' : exists x, run cfg w' order x
                         /\ snd x = snd (process_csv_orders cfg w order)
                         /\ ((exists recs, fst (process_csv_orders cfg w order)
                                           = summary recs)
                             <-> (exists recs, fst x = summary recs))).
  { by_cases cfg w order;
      try match goal with
        | H : fetch w ?u = _ |- _ => rewrite <- (Hf u) in H
        end;
      eexists; (split; [econstructor; eauto|]); simpl;
      (split; [reflexivity|]);
      split; intros [recs Hr]; try discriminate Hr; eauto. }
  destruct R' as (x & Rx & Hs & Hiff).
  rewrite (run_is_process cfg w' order x Rx). auto.
Qed.

Lemma calls_do_not_depend_on_answers_witness :
  snd (process_csv_orders shop (second_refused (Response 200 (Ended [jane; bob])))
         gift_order)
  = snd (process_csv_orders shop (friendly (Response 200 (Ended [jane; bob])))
           gift_order)
  /\ ((exists recs,
         fst (process_csv_orders shop
                (friendly (Response 200 (Ended [jane; bob]))) gift_order)
         = summary recs)
      <-> (exists recs,
             fst (process_csv_orders shop
                    (second_refused (Response 200 (Ended [jane; bob]))) gift_order)
             = summary recs)).
Proof.
  apply (calls_do_not_depend_on_answers shop
           (friendly (Response 200 (Ended [jane; bob])))
           (second_refused (Response 200 (Ended [jane; bob]))) gift_order).
  intros url. reflexivity.
Defined.

(** X24.  When the order's identifier cannot be printed the run is not
    undone: every row has been posted, then the cancellation URL cannot be
    built, no cancellation is posted and the webhook is answered with the
    500 error although the child orders were requested. *)
Theorem unprintable_id_leaves_children
    (cfg : config) (w : world) (order : value) (label note url : string)
    (status : Z) (rows : list row) (bodies : list value) (e : error) :
  order_label order = Ok label ->
  note_of order = VStr note ->
  Regex.js_match csv_url_pattern note = Some url ->
  fetch w url = Response status (Ended rows) ->
  Forall2 (fun r b => newOrder order r = Ok b) rows bodies ->
  to_string (own_or_undefined order "id") = Err e ->
  fst (process_csv_orders cfg w order) = internal_error
  /\ creations (snd (process_csv_orders cfg w order)) = bodies
  /\ cancellations (snd (process_csv_orders cfg w order)) = [].
Proof.
  intros El Hn Hm Hf Hb Hi.
  rewrite (run_is_process cfg w order _
             (run_cancel_error cfg w order label url status rows bodies e
                El (link_of_note order note url Hn Hm) Hf Hb Hi)).
  simpl fst. cbn [snd].
  change (HttpsGet url :: ?l) with ([HttpsGet url] ++ l)%list.
  rewrite creations_app, cancellations_app, creations_posts, cancellations_posts.
  auto.
Qed.

Lemma unprintable_id_leaves_children_witness :
  fst (process_csv_orders shop (friendly (Response 200 (Ended [bob])))
         (VObj [("id", unprintable); ("name", VStr "#7");
                ("note", VStr list_url)]))
  = internal_error
  /\ creations (snd (process_csv_orders shop (friendly (Response 200 (Ended [bob])))
         (VObj [("id", unprintable); ("name", VStr "#7");
                ("note", VStr list_url)])))
     = [VObj [("order",
               VObj [("line_items", VArr []);
                     ("customer", customer bob);
                     ("shipping_address", shipping_address bob);
                     ("financial_status", VStr "paid");
                     ("tags", VStr "Created from CSV of order #7")])]]
  /\ cancellations (snd (process_csv_orders shop (friendly (Response 200 (Ended [bob])))
         (VObj [("id", unprintable); ("name", VStr "#7");
                ("note", VStr list_url)])))
     = [].
Proof.
  apply (unprintable_id_leaves_children shop (friendly (Response 200 (Ended [bob])))
           (VObj [("id", unprintable); ("name", VStr "#7");
                  ("note", VStr list_url)])
           "#7" list_url list_url 200 [bob] _
           (TypeError "Cannot convert object to primitive value")).
  - reflexivity.
  - reflexivity.
  - reflexivity.
  - reflexivity.
  - constructor; [reflexivity | constructor].
  - reflexivity.
Defined.

Lemma loop_records_ext (w w' : world) (order : value) (rows : list row) :
  (forall i b, create w' i b = create w i b) ->
  forall i, loop_records w' order i rows = loop_records w order i rows.
Proof.
  intros Hc. induction rows as [|r rows IH]; intros i; simpl; [reflexivity|].
  rewrite IH. destruct (newOrder order r); [|reflexivity].
  unfold child_records. now rewrite Hc.
Qed.

Lemma decoded_request_error (f : fetch_outcome) (msg : string) :
  decoded f = decoded (RequestError msg) -> exists msg', f = RequestError msg'.
Proof. destruct f as [m|s [rows|rows m]]; try discriminate. eauto. Qed.

Lemma decoded_failed (f : fetch_outcome) (s : Z) (rows : list row) (msg : string) :
  decoded f = decoded (Response s (Failed rows msg)) ->
  exists s' rows' msg', f = Response s' (Failed rows' msg').
Proof. destruct f as [m|s' [rows'|rows' m]]; try discriminate. eauto. Qed.

Lemma decoded_ended (f : fetch_outcome) (s : Z) (rows : list row) :
  decoded f = decoded (Response s (Ended rows)) ->
  exists s', f = Response s' (Ended rows).
Proof.
  destruct f as [m|s' [rows'|rows' m]]; try discriminate.
  intros H; inversion H. eauto.
Qed.

(** X25.  Of the answer to the download the handler uses only whether the
    request failed, whether the parser failed, and the decoded rows: the
    HTTP status, the text of an error and the rows decoded before a parser
    error never show.  Two worlds that agree on this and on the answers to
    the creation posts lead to the same response and the same calls. *)
Theorem only_the_decoded_rows_count
    (cfg : config) (w w' : world) (order : value) :
  (forall url, decoded (fetch w' url) = decoded (fetch w url)) ->
  (forall i b, create w' i b = create w i b) ->
  process_csv_orders cfg w' order = process_csv_orders cfg w order.
Proof.
  intros Hf Hc. apply run_is_process.
  pose proof (process_run cfg w order) as R.
  destruct R;
    try match goal with
      | H : fetch w ?u = RequestError _ |- _ =>
          let E := fresh in
          pose proof (Hf u) as E; rewrite H in E;
          apply decoded_request_error in E as (? & E)
      | H : fetch w ?u = Response _ (Failed _ _) |- _ =>
          let E := fresh in
          pose proof (Hf u) as E; rewrite H in E;
          apply decoded_failed in E as (? & ? & ? & E)
      | H : fetch w ?u = Response _ (Ended _) |- _ =>
          let E := fresh in
          pose proof (Hf u) as E; rewrite H in E;
          apply decoded_ended in E as (? & E)
      end;
    try rewrite <- (loop_records_ext w w' order _ Hc 0).
  - eapply run_label_error; eauto.
  - eapply run_note_error; eauto.
  - eapply run_skip; eauto.
  - eapply run_request_error; eauto.
  - eapply run_parse_error; eauto.
  - eapply run_build_error; eauto.
  - eapply run_cancel_error; eauto.
  - eapply run_done; eauto.
Qed.

Lemma only_the_decoded_rows_count_witness :
  process_csv_orders shop (friendly (Response 404 (Ended [jane]))) gift_order
  = process_csv_orders shop (friendly (Response 200 (Ended [jane]))) gift_order.
Proof.
  apply (only_the_decoded_rows_count shop
           (friendly (Response 200 (Ended [jane])))
           (friendly (Response 404 (Ended [jane]))) gift_order).
  - intros url. reflexivity.
  - intros i b. reflexivity.
Defined.
